(** * 2048 on the Raspberry Pi: the grid engine and the game session

    A shallow embedding of [2048Final.py]: the line merge, the four moves,
    the game-over test, the tile spawn and the two request handlers that
    mutate [GAME_STATE].  Cells are Python integers, modelled as [Z]; a grid
    is a list of rows.  Python exceptions are values of [exn]; the random
    module is a tape of draws. *)

From Stdlib Require Import String QArith ZArith List Bool Lia.
From Stdlib Require DecimalString.
Import ListNotations.

Local Open Scope Z_scope.

(** ** Exceptions and results *)

Inductive exn : Type :=
| IndexError
| UnboundLocalError.

Definition result (A : Type) : Type := (exn + A)%type.

Definition Ok {A : Type} (a : A) : result A := inr a.
Definition Raise {A : Type} (e : exn) : result A := inl e.

Definition bindR {A B : Type} (m : result A) (k : A -> result B) : result B :=
  match m with
  | inl e => inl e
  | inr a => k a
  end.

(** ** Lists the way the program uses them *)

Definition Line : Type := list Z.
Definition Grid : Type := list (list Z).

Definition GRID_WIDTH : nat := 4.

(** [l[i] = v] for an index inside the list. *)
Fixpoint list_set {A : Type} (l : list A) (i : nat) (v : A) : list A :=
  match l, i with
  | [], _ => []
  | _ :: t, O => v :: t
  | h :: t, S i' => h :: list_set t i' v
  end.

(** [old_row == new_row] on lists of integers. *)
Fixpoint list_eqb (l1 l2 : list Z) : bool :=
  match l1, l2 with
  | [], [] => true
  | x :: t1, y :: t2 => (x =? y) && list_eqb t1 t2
  | _, _ => false
  end.

(** The transposition [zip] of the unpacked rows of the grid: its columns,
    as many as the shortest row has cells; no column for an empty grid. *)
Fixpoint zip_star (grid : Grid) : Grid :=
  match grid with
  | [] => []
  | [row] => map (fun x => [x]) row
  | row :: rest => map (fun p => fst p :: snd p) (combine row (zip_star rest))
  end.

(** [grid[i][j]], which raises IndexError outside the grid. *)
Definition grid_get (grid : Grid) (i j : nat) : result Z :=
  match nth_error grid i with
  | None => Raise IndexError
  | Some row =>
      match nth_error row j with
      | None => Raise IndexError
      | Some v => Ok v
      end
  end.

(** [grid[i][j] = v], which raises IndexError outside the grid. *)
Definition grid_set (grid : Grid) (i j : nat) (v : Z) : result Grid :=
  match nth_error grid i with
  | None => Raise IndexError
  | Some row =>
      if (j <? length row)%nat
      then Ok (list_set grid i (list_set row j v))
      else Raise IndexError
  end.

(** ** merge_tiles *)

(** [[x for x in line if x != 0]] *)
Definition remove_zeros (line : Line) : Line :=
  filter (fun x => negb (x =? 0)) line.

(** The body of the [for i in range(len(merged_line) - 1)] loop, on the pair
    of the list being rewritten and the score so far.  Both [i] and [i + 1]
    are inside the list at every iteration, the list keeping its length. *)
Definition merge_step (st : Line * Z) (i : nat) : Line * Z :=
  let '(merged_line, newAddedScore) := st in
  if nth i merged_line 0 =? nth (S i) merged_line 0 then
    let merged_value := nth i merged_line 0 * 2 in
    (list_set (list_set merged_line i merged_value) (S i) 0,
     newAddedScore + merged_value)
  else st.

Definition merge_loop (merged_line : Line) : Line * Z :=
  fold_left merge_step (seq 0 (length merged_line - 1)) (merged_line, 0).

Definition merge_tiles (line : Line) : Line * Z :=
  let '(merged_line, newAddedScore) := merge_loop (remove_zeros line) in
  let merged_line := remove_zeros merged_line in
  (merged_line ++ repeat 0 (GRID_WIDTH - length merged_line), newAddedScore).

(** ** The four moves *)

Definition move_left (grid : Grid) : Grid * Z :=
  fold_left
    (fun (acc : Grid * Z) (row : Line) =>
       let '(new_grid, score) := acc in
       let '(merged_row, row_score) := merge_tiles row in
       (new_grid ++ [merged_row], score + row_score))
    grid ([], 0).

Definition move_right (grid : Grid) : Grid * Z :=
  fold_left
    (fun (acc : Grid * Z) (row : Line) =>
       let '(new_grid, score) := acc in
       let reversed_row := rev row in
       let '(merged_row, row_score) := merge_tiles reversed_row in
       (new_grid ++ [rev merged_row], score + row_score))
    grid ([], 0).

Definition move_up (grid : Grid) : Grid * Z :=
  let transposed_grid := zip_star grid in
  let '(new_transposed_grid, score) := move_left transposed_grid in
  (zip_star new_transposed_grid, score).

Definition move_down (grid : Grid) : Grid * Z :=
  let transposed_grid := zip_star grid in
  let '(new_transposed_grid, score) := move_right transposed_grid in
  (zip_star new_transposed_grid, score).

(** [any(old_row != new_row for old_row, new_row in zip(grid, new_grid))] *)
Definition grid_updated (grid new_grid : Grid) : bool :=
  existsb (fun p => negb (list_eqb (fst p) (snd p))) (combine grid new_grid).

(** [move]: with a direction other than the four letters no branch binds
    [new_grid], and reading it raises UnboundLocalError. *)
Definition move (grid : Grid) (direction : string) : result (Grid * Z * bool) :=
  let moved :=
    if String.eqb direction "a" then Some (move_left grid)
    else if String.eqb direction "d" then Some (move_right grid)
    else if String.eqb direction "w" then Some (move_up grid)
    else if String.eqb direction "s" then Some (move_down grid)
    else None in
  match moved with
  | None => Raise UnboundLocalError
  | Some (new_grid, newAddedScore) =>
      let isGridUpdated := grid_updated grid new_grid in
      Ok (new_grid, newAddedScore, isGridUpdated)
  end.

(** ** is_game_over *)

(** [zip(row[:-1], row[1:])] *)
Definition adjacent_pairs (row : Line) : list (Z * Z) :=
  combine (removelast row) (tl row).

(** No pair of the row makes the loop return False. *)
Definition row_blocked (row : Line) : bool :=
  forallb (fun p => negb ((fst p =? snd p) || (fst p =? 0) || (snd p =? 0)))
          (adjacent_pairs row).

Definition is_game_over (grid : Grid) : bool :=
  forallb row_blocked grid && forallb row_blocked (zip_star grid).

(** ** The random module

    The generator is a tape of draws and the position of the next one.
    [random.choice] takes one draw and [random.random] takes one. *)

Record RNG : Type := { tape : nat -> nat; pos : nat }.

Definition draw (r : RNG) : nat * RNG :=
  (tape r (pos r), {| tape := tape r; pos := S (pos r) |}).

(** A computation that reads the generator and may raise. *)
Definition Rand (A : Type) : Type := RNG -> result A * RNG.

Definition retM {A : Type} (a : A) : Rand A := fun r => (Ok a, r).

Definition bindM {A B : Type} (m : Rand A) (k : A -> Rand B) : Rand B :=
  fun r =>
    match m r with
    | (inl e, r') => (inl e, r')
    | (inr a, r') => k a r'
    end.

Definition liftR {A : Type} (m : result A) : Rand A := fun r => (m, r).

Notation "x <- m ;; k" := (bindM m (fun x => k))
  (at level 61, m at next level, right associativity).

(** [random.choice(seq)]: IndexError on an empty sequence, otherwise the
    element at an index below [len(seq)]. *)
Definition random_choice {A : Type} (seq : list A) : Rand A :=
  fun r =>
    match seq with
    | [] => (Raise IndexError, r)
    | x :: _ =>
        let '(n, r') := draw r in
        (Ok (nth (n mod length seq) seq x), r')
    end.

(** [random.random()]: a multiple of 2^-53 in the interval from 0 to 1. *)
Definition random_random : Rand Q :=
  fun r =>
    let '(n, r') := draw r in
    (Ok (Qmake (Z.of_nat n mod 2 ^ 53) (2 ^ 53)), r').

Definition Qltb (x y : Q) : bool :=
  Qnum x * Zpos (Qden y) <? Qnum y * Zpos (Qden x).

(** ** add_tile and new_game *)

(** The cells [(i, j)] of [cells], in order, with [grid[i][j] == 0]. *)
Fixpoint select_empty (grid : Grid) (cells : list (nat * nat))
  : result (list (nat * nat)) :=
  match cells with
  | [] => Ok []
  | (i, j) :: rest =>
      bindR (grid_get grid i j) (fun v =>
      bindR (select_empty grid rest) (fun found =>
      Ok (if v =? 0 then (i, j) :: found else found)))
  end.

(** [[(i, j) for i in range(GRID_WIDTH) for j in range(GRID_WIDTH)
      if grid[i][j] == 0]] *)
Definition empty_tiles (grid : Grid) : result (list (nat * nat)) :=
  select_empty grid (list_prod (seq 0 GRID_WIDTH) (seq 0 GRID_WIDTH)).

(** [add_tile] rewrites the grid it is given; the grid after the call is the
    value returned here.  When it raises, the grid is as it was. *)
Definition add_tile (grid : Grid) : Rand Grid :=
  empty <- liftR (empty_tiles grid) ;;
  ij <- random_choice empty ;;
  x <- random_random ;;
  liftR (grid_set grid (fst ij) (snd ij) (if Qltb x (9 # 10) then 2 else 4)).

Definition new_game : Rand Grid :=
  let grid := repeat (repeat 0 GRID_WIDTH) GRID_WIDTH in
  grid <- add_tile grid ;;
  grid <- add_tile grid ;;
  retM grid.

(** ** The game session *)

Record GameState : Type :=
  { grid : Grid; score : Z; high_score : Z }.

(** What a handler reads and writes: the [GAME_STATE] dictionary and the
    generator.  Both outlive an exception raised by a handler. *)
Record World : Type :=
  { GAME_STATE : GameState; random : RNG }.

(** How a handler ends: it returns; it leaves through bottle's [redirect],
    which hands the framework its answer by raising an HTTPResponse; or a
    Python error escapes it. *)
Inductive outcome : Type :=
| Returned
| Redirected (url : string)
| Raised (e : exn).

(** [not direction] *)
Definition falsy (direction : option string) : bool :=
  match direction with
  | None => true
  | Some s => String.eqb s ""
  end.

(** [direction in ('w', 'a', 's', 'd')] *)
Definition in_wasd (direction : option string) : bool :=
  match direction with
  | None => false
  | Some s =>
      String.eqb s "w" || String.eqb s "a" || String.eqb s "s"
      || String.eqb s "d"
  end.

(** [restart_game].  The write to the LCD does not touch [GAME_STATE]. *)
Definition restart_game (w : World) : outcome * World :=
  match new_game (random w) with
  | (inl e, r) => (Raised e, {| GAME_STATE := GAME_STATE w; random := r |})
  | (inr new_grid, r) =>
      (Returned,
       {| GAME_STATE := {| grid := new_grid;
                           score := 0;
                           high_score := high_score (GAME_STATE w) |};
          random := r |})
  end.

(** The guarded block of [move_tiles], for a direction among the four. *)
Definition update_game_data (direction : string) (w : World)
  : option exn * World :=
  let st := GAME_STATE w in
  match move (grid st) direction with
  | inl e => (Some e, w)
  | inr (new_grid, addedScore, moved) =>
      let st1 := {| grid := new_grid; score := score st;
                    high_score := high_score st |} in
      if moved then
        match add_tile new_grid (random w) with
        | (inl e, r) => (Some e, {| GAME_STATE := st1; random := r |})
        | (inr spawned, r) =>
            let new_score := score st + addedScore in
            (None,
             {| GAME_STATE :=
                  {| grid := spawned;
                     score := new_score;
                     high_score := if new_score >? high_score st
                                   then new_score else high_score st |};
                random := r |})
        end
      else (None, {| GAME_STATE := st1; random := random w |})
  end.

(** [move_tiles(direction)], where [form_direction] is what
    [request.forms.get('direction')] holds.  The write to the LCD does not
    touch [GAME_STATE]. *)
Definition move_tiles (form_direction direction : option string) (w : World)
  : outcome * World :=
  let direction := if falsy direction then form_direction else direction in
  let '(raised, w') :=
    match direction with
    | Some d => if in_wasd direction then update_game_data d w else (None, w)
    | None => (None, w)
    end in
  match raised with
  | Some e => (Raised e, w')
  | None => if falsy direction then (Redirected "/", w') else (Returned, w')
  end.

(** The start of the program: [GAME_STATE] with a new grid and both scores
    at 0. *)
Definition initial_world (r : RNG) : result World :=
  match new_game r with
  | (inl e, _) => Raise e
  | (inr g, r') =>
      Ok {| GAME_STATE := {| grid := g; score := 0; high_score := 0 |};
            random := r' |}
  end.

(** Requests reaching the two handlers, and the session after a list of
    them. *)
Inductive request : Type :=
| MoveRequest (form_direction direction : option string)
| RestartRequest.

Definition handle (w : World) (q : request) : outcome * World :=
  match q with
  | MoveRequest form_direction direction => move_tiles form_direction direction w
  | RestartRequest => restart_game w
  end.

Definition serve (w : World) (requests : list request) : World :=
  fold_left (fun w q => snd (handle w q)) requests w.

(** ** joystick_move_tiles *)

(** The dictionary that joystick_move_tiles hands to [json.dumps]. *)
Record game_data : Type :=
  { data_grid : Grid;
    data_score : Z;
    data_high_score : Z;
    data_game_over : bool }.

(** [a or b] on two values that are a string or None. *)
Definition py_or (a b : option string) : option string :=
  if falsy a then b else a.

(** [joystick_move_tiles], where [form_direction] and [query_direction] are
    what [request.forms.get('direction')] and
    [request.query.get('direction')] hold.  When move_tiles does not return,
    neither does this handler; otherwise it answers with the game data. *)
Definition joystick_move_tiles
  (form_direction query_direction : option string) (w : World)
  : (outcome + game_data) * World :=
  let direction := py_or form_direction query_direction in
  let '(o, w') :=
    match direction with
    | None => (Returned, w)
    | Some _ => move_tiles form_direction direction w
    end in
  match o with
  | Returned =>
      (inr {| data_grid := grid (GAME_STATE w');
              data_score := score (GAME_STATE w');
              data_high_score := high_score (GAME_STATE w');
              data_game_over := is_game_over (grid (GAME_STATE w')) |},
       w')
  | _ => (inl o, w')
  end.

(** ** lcd_score_update *)

Definition DISPLAY_SCORE_MAX : Z := 9999.

(** [str(n)] for an integer. *)
Definition str (n : Z) : string :=
  DecimalString.NilZero.string_of_int (Z.to_int n).

(** The calls made to the LCD1602 module. *)
Inductive lcd_call : Type :=
| LCD_clear
| LCD_write (x y : Z) (text : string).

Section LCD.

(** Constants of the LCD1602 module. *)
Variables LCD_CHAR_POSITION_1 LCD_LINE_NUM_1 LCD_LINE_NUM_2 : Z.

Definition lcd_score_update (st : GameState) : list lcd_call :=
  [ LCD_clear;
    LCD_write LCD_CHAR_POSITION_1 LCD_LINE_NUM_1
      (String.append "Score: " (str (Z.min DISPLAY_SCORE_MAX (score st))));
    LCD_write LCD_CHAR_POSITION_1 LCD_LINE_NUM_2
      (String.append "High Score: "
         (str (Z.min DISPLAY_SCORE_MAX (high_score st)))) ].

End LCD.

(** ** io_setup *)

Inductive adc_device : Type :=
| ADCDevice
| PCF8591
| ADS7830.

(** How io_setup ends: [exit(code)], or the device it returns. *)
Inductive setup_result : Type :=
| Exit (code : Z)
| Ready (adc : adc_device).

(** [io_setup], where [detectI2C adc addr] is the answer of
    [adc.detectI2C(addr)].  The addresses are 0x48 and 0x4B.  The [else]
    belongs to the second test. *)
Definition io_setup (detectI2C : adc_device -> Z -> bool) : setup_result :=
  let adc := ADCDevice in
  let adc := if detectI2C adc 72 then PCF8591 else adc in
  if detectI2C adc 75 then Ready ADS7830 else Exit (-1).

(** ** handle_joystick_input *)

Definition JOYSTICK_THRESHOLD_MIN : Z := 50.
Definition JOYSTICK_THRESHOLD_MAX : Z := 250.

(** The requests the polling loop sends to the server. *)
Inductive http_request : Type :=
| POST_restart
| GET_joystick_move (direction : string).

(** What one pass of the loop reads: the level of the pin of the button
    ([GPIO.input], true for high) and the two channels of the converter. *)
Record reading : Type :=
  { z_pin : bool; xAxisVal : Z; yAxisVal : Z }.

(** [direction != handle_joystick_input.directionPrev] *)
Definition direction_differs (direction directionPrev : option string)
  : bool :=
  match direction, directionPrev with
  | None, None => false
  | Some a, Some b => negb (String.eqb a b)
  | _, _ => true
  end.

(** One pass through the body of the [while True] loop, with the grid that
    [GAME_STATE] holds when the button is tested: the requests sent, in
    order, and the new [directionPrev]. *)
Definition joystick_poll
  (rd : reading) (current_grid : Grid) (directionPrev : option string)
  : list http_request * option string :=
  let '(posted, direction) :=
    if negb (z_pin rd) then
      (if is_game_over current_grid then [POST_restart] else [], None)
    else if xAxisVal rd <=? JOYSTICK_THRESHOLD_MIN then ([], Some "a"%string)
    else if xAxisVal rd >=? JOYSTICK_THRESHOLD_MAX then ([], Some "d"%string)
    else if yAxisVal rd <=? JOYSTICK_THRESHOLD_MIN then ([], Some "w"%string)
    else if yAxisVal rd >=? JOYSTICK_THRESHOLD_MAX then ([], Some "s"%string)
    else ([], None) in
  let sent :=
    match direction with
    | Some d =>
        if negb (falsy direction) && direction_differs direction directionPrev
        then [GET_joystick_move d] else []
    | None => []
    end in
  (posted ++ sent, direction).

(** The server's side of a request of the loop: the route of restart_game,
    and the route of joystick_move_tiles with the direction in the query and
    no form. *)
Definition deliver (w : World) (q : http_request) : World :=
  match q with
  | POST_restart => snd (restart_game w)
  | GET_joystick_move d => snd (joystick_move_tiles None (Some d) w)
  end.

(** The loop over a list of readings: each pass sends its requests and
    waits for the answers. *)
Definition joystick_pass (st : option string * World) (rd : reading)
  : option string * World :=
  let '(directionPrev, w) := st in
  let '(requests, direction) :=
    joystick_poll rd (grid (GAME_STATE w)) directionPrev in
  (direction, fold_left deliver requests w).

Definition handle_joystick_input (readings : list reading) (w : World)
  : option string * World :=
  fold_left joystick_pass readings (None, w).

(** ** The line merge as the specification words it

    Zeros are removed; one pass from the left merges a cell with its right
    neighbour when the two are equal and not empty, the merged cell taking
    the sum and the neighbour becoming empty and being skipped; zeros are
    removed again and the line is padded on the right to four cells.  The
    score is the sum of the values the merges create. *)

Fixpoint scan_spec (cells : Line) : Line * Z :=
  match cells with
  | x :: ((y :: rest) as others) =>
      if (x =? y) && negb (x =? 0) then
        let '(scanned, gained) := scan_spec rest in
        ((x + y) :: 0 :: scanned, (x + y) + gained)
      else
        let '(scanned, gained) := scan_spec others in
        (x :: scanned, gained)
  | _ => (cells, 0)
  end.

Definition compress_and_merge_spec (line : Line) : Line * Z :=
  let '(scanned, gained) := scan_spec (remove_zeros line) in
  let packed := remove_zeros scanned in
  (packed ++ repeat 0 (4 - length packed), gained).

(** * The vocabulary of the statements *)

(** No cell of the line is empty. *)
Definition zero_free (l : Line) : Prop := Forall (fun x => x <> 0) l.

(** The sum of the cells of a line. *)
Definition line_sum (l : Line) : Z := fold_right Z.add 0 l.

(** A cell is empty or holds a power of two that is at least 2. *)
Definition is_tile (v : Z) : Prop :=
  v = 0 \/ exists k : nat, v = 2 ^ Z.of_nat (S k).

(** What move_left and move_right do to one row. *)
Definition slide_left (row : Line) : Line := fst (merge_tiles row).
Definition slide_right (row : Line) : Line :=
  rev (fst (merge_tiles (rev row))).

(** The tiles of the row are packed to the left and no two neighbours
    among them are equal. *)
Definition packed_unmergeable (a b c d : Z) : Prop :=
  (a = 0 -> b = 0) /\ (b = 0 -> c = 0) /\ (c = 0 -> d = 0) /\
  (a <> 0 -> a <> b) /\ (b <> 0 -> b <> c) /\ (c <> 0 -> c <> d).

(** A row of four empty cells, and a full row with no two equal
    neighbours. *)
Definition row_empty (a b c d : Z) : Prop :=
  a = 0 /\ b = 0 /\ c = 0 /\ d = 0.

Definition row_stuck (a b c d : Z) : Prop :=
  a <> 0 /\ b <> 0 /\ c <> 0 /\ d <> 0 /\ a <> b /\ b <> c /\ c <> d.

(** The grid has [GRID_WIDTH] rows of [GRID_WIDTH] cells. *)
Definition well_shaped (g : Grid) : bool :=
  (length g =? GRID_WIDTH)%nat
  && forallb (fun row => (length row =? GRID_WIDTH)%nat) g.

(** All the cells of the grid, row after row. *)
Definition cells (g : Grid) : Line := concat g.

(** One of the two row transformations of the moves. *)
Definition is_slide (f : Line -> Line) : Prop :=
  f = slide_left \/ f = slide_right.

(** The grid with [f] applied to each row, or to each column. *)
Definition slid (f : Line -> Line) (by_columns : bool) (g : Grid) : Grid :=
  if by_columns then zip_star (map f (zip_star g)) else map f g.

(** The cell in row [i] and column [j] of a grid that has it. *)
Definition cell (g : Grid) (i j : nat) : Z := nth j (nth i g []) 0.

(** The grid with [v] written into row [i], column [j]. *)
Definition place (g : Grid) (i j : nat) (v : Z) : Grid :=
  list_set g i (list_set (nth i g []) j v).

(** The number of tiles on the grid. *)
Definition count_tiles (g : Grid) : nat := length (remove_zeros (cells g)).

(** The sixteen positions, in the order add_tile visits them. *)
Definition all_cells : list (nat * nat) :=
  list_prod (seq 0 GRID_WIDTH) (seq 0 GRID_WIDTH).

(** The test of add_tile on the cell at position [p]. *)
Definition is_empty_cell (g : Grid) (p : nat * nat) : bool :=
  cell g (fst p) (snd p) =? 0.

(** The generator after [n] draws. *)
Definition advanced (n : nat) (r : RNG) : RNG :=
  {| tape := tape r; pos := (n + pos r)%nat |}.

(** The grid new_game starts from. *)
Definition empty_grid : Grid := repeat (repeat 0 GRID_WIDTH) GRID_WIDTH.

(** The two grids differ at position [p]. *)
Definition differing_cell (g g' : Grid) (p : nat * nat) : bool :=
  negb (cell g' (fst p) (snd p) =? cell g (fst p) (snd p)).

(** The direction move_tiles works with: the argument, or the form field
    when the argument is missing or empty. *)
Definition effective (form_direction direction : option string)
  : option string :=
  if falsy direction then form_direction else direction.

(** A generator and a session to run the handlers on. *)
Definition sample_tape (n : nat) : nat := (n * 7 + 3)%nat.

Definition sample_world : World :=
  {| GAME_STATE :=
       {| grid := [[2; 2; 0; 0]; [0; 4; 0; 0]; [0; 0; 0; 0]; [0; 0; 0; 0]];
          score := 12; high_score := 14 |};
     random := {| tape := sample_tape; pos := 0 |} |}.

(** The invariant of the two scores of a session. *)
Definition scores_ordered (w : World) : Prop :=
  0 <= high_score (GAME_STATE w)
  /\ score (GAME_STATE w) <= high_score (GAME_STATE w).

(** No cell is empty; no two neighbours in a row or in a column are equal;
    every cell is empty. *)
Definition no_empty_cell (g : Grid) : Prop :=
  forall i j, (i < GRID_WIDTH)%nat -> (j < GRID_WIDTH)%nat -> cell g i j <> 0.

Definition no_equal_neighbours (g : Grid) : Prop :=
  (forall i j, (i < GRID_WIDTH)%nat -> (S j < GRID_WIDTH)%nat ->
               cell g i j <> cell g i (S j))
  /\ (forall i j, (S i < GRID_WIDTH)%nat -> (j < GRID_WIDTH)%nat ->
                  cell g i j <> cell g (S i) j).

Definition all_empty (g : Grid) : Prop :=
  forall i j, (i < GRID_WIDTH)%nat -> (j < GRID_WIDTH)%nat -> cell g i j = 0.

(** The slide of each direction, and whether it works on the columns. *)
Definition direction_slide (d : string) : (Line -> Line) * bool :=
  if String.eqb d "a" then (slide_left, false)
  else if String.eqb d "d" then (slide_right, false)
  else if String.eqb d "w" then (slide_left, true)
  else (slide_right, true).

(** The lines of a grid given by its sixteen cells: every row and every
    column stuck, and every row empty. *)
Definition lines_stuck
  (a0 a1 a2 a3 b0 b1 b2 b3 c0 c1 c2 c3 d0 d1 d2 d3 : Z) : Prop :=
  (row_stuck a0 a1 a2 a3 /\ row_stuck b0 b1 b2 b3
   /\ row_stuck c0 c1 c2 c3 /\ row_stuck d0 d1 d2 d3)
  /\ (row_stuck a0 b0 c0 d0 /\ row_stuck a1 b1 c1 d1
      /\ row_stuck a2 b2 c2 d2 /\ row_stuck a3 b3 c3 d3).

Definition rows_empty
  (a0 a1 a2 a3 b0 b1 b2 b3 c0 c1 c2 c3 d0 d1 d2 d3 : Z) : Prop :=
  row_empty a0 a1 a2 a3 /\ row_empty b0 b1 b2 b3
  /\ row_empty c0 c1 c2 c3 /\ row_empty d0 d1 d2 d3.

(** The score move_left and move_right gain on one row. *)
Definition score_left (row : Line) : Z := snd (merge_tiles row).
Definition score_right (row : Line) : Z := snd (merge_tiles (rev row)).

(** The score of each direction on one line, and the lines it works on. *)
Definition direction_score (d : string) : Line -> Z :=
  if String.eqb d "a" then score_left
  else if String.eqb d "d" then score_right
  else if String.eqb d "w" then score_left
  else score_right.

Definition direction_lines (d : string) (g : Grid) : Grid :=
  if snd (direction_slide d) then zip_star g else g.

(** No cell of the line is negative. *)
Definition nonneg (l : Line) : Prop := Forall (fun x => 0 <= x) l.

(** A session as play produces it: a four by four grid of tiles with at
    least two of them, and a score between 0 and the high score. *)
Definition session_ok (w : World) : Prop :=
  well_shaped (grid (GAME_STATE w)) = true
  /\ Forall is_tile (cells (grid (GAME_STATE w)))
  /\ (2 <= count_tiles (grid (GAME_STATE w)))%nat
  /\ 0 <= score (GAME_STATE w) <= high_score (GAME_STATE w).

(** A reading with the button up and both axes at rest, then one with the
    stick pushed to the left, then one with the button down. *)
Definition reading_idle : reading :=
  {| z_pin := true; xAxisVal := 128; yAxisVal := 128 |}.

Definition reading_left : reading :=
  {| z_pin := true; xAxisVal := 10; yAxisVal := 128 |}.

Definition reading_button : reading :=
  {| z_pin := false; xAxisVal := 128; yAxisVal := 128 |}.

(** A session whose game is over. *)
Definition stuck_world : World :=
  {| GAME_STATE :=
       {| grid := [[2; 4; 2; 4]; [4; 2; 4; 2]; [2; 4; 2; 4]; [4; 2; 4; 2]];
          score := 20; high_score := 36 |};
     random := {| tape := sample_tape; pos := 0 |} |}.

(** The game data of a session, as joystick_move_tiles reports it. *)
Definition snapshot (w : World) : game_data :=
  {| data_grid := grid (GAME_STATE w);
     data_score := score (GAME_STATE w);
     data_high_score := high_score (GAME_STATE w);
     data_game_over := is_game_over (grid (GAME_STATE w)) |}.

(** The direction that the two axes give when the button is up. *)
Definition axis_direction (rd : reading) : option string :=
  if xAxisVal rd <=? JOYSTICK_THRESHOLD_MIN then Some "a"%string
  else if xAxisVal rd >=? JOYSTICK_THRESHOLD_MAX then Some "d"%string
  else if yAxisVal rd <=? JOYSTICK_THRESHOLD_MIN then Some "w"%string
  else if yAxisVal rd >=? JOYSTICK_THRESHOLD_MAX then Some "s"%string
  else None.

(** * Properties *)

(** ** Lists *)

Lemma list_eqb_eq (l1 l2 : list Z) : list_eqb l1 l2 = true <-> l1 = l2.
Proof.
  revert l2; induction l1 as [|x t1 IH]; intros [|y t2]; simpl;
    try (split; congruence).
  rewrite andb_true_iff, Z.eqb_eq, IH. split.
  - intros [-> ->]; reflexivity.
  - intros E; injection E; auto.
Qed.

Lemma list_eqb_refl (l : list Z) : list_eqb l l = true.
Proof. apply list_eqb_eq; reflexivity. Qed.

Lemma list_set_middle {A : Type} (p : list A) (x v : A) (t : list A) :
  list_set (p ++ x :: t) (length p) v = p ++ v :: t.
Proof. induction p as [|h p IH]; simpl; [reflexivity | now rewrite IH]. Qed.

Lemma nth_middle_next (p : list Z) (x y : Z) (t : list Z) :
  nth (S (length p)) (p ++ x :: y :: t) 0 = y.
Proof.
  replace (p ++ x :: y :: t) with ((p ++ [x]) ++ y :: t)
    by (rewrite <- app_assoc; reflexivity).
  replace (S (length p)) with (length (p ++ [x]))
    by (rewrite length_app; simpl; lia).
  apply nth_middle.
Qed.

Lemma list_set_middle_next (p : list Z) (x y v : Z) (t : list Z) :
  list_set (p ++ x :: y :: t) (S (length p)) v = p ++ x :: v :: t.
Proof.
  replace (p ++ x :: y :: t) with ((p ++ [x]) ++ y :: t)
    by (rewrite <- app_assoc; reflexivity).
  replace (S (length p)) with (length (p ++ [x]))
    by (rewrite length_app; simpl; lia).
  rewrite list_set_middle, <- app_assoc. reflexivity.
Qed.

(** ** The loop of merge_tiles is the single pass of the specification *)

Lemma remove_zeros_zero_free (l : Line) : zero_free (remove_zeros l).
Proof.
  unfold zero_free, remove_zeros. apply Forall_forall. intros x Hx.
  apply filter_In in Hx. destruct Hx as [_ Hx].
  apply negb_true_iff, Z.eqb_neq in Hx. exact Hx.
Qed.

Lemma merge_step_at (p : Line) (x y : Z) (t : Line) (acc : Z) :
  merge_step (p ++ x :: y :: t, acc) (length p) =
  if x =? y then (p ++ x * 2 :: 0 :: t, acc + x * 2)
  else (p ++ x :: y :: t, acc).
Proof.
  unfold merge_step. rewrite nth_middle, nth_middle_next.
  destruct (x =? y); [|reflexivity].
  rewrite list_set_middle, list_set_middle_next. reflexivity.
Qed.

Lemma scan_spec_cons2 (x y : Z) (rest : Line) :
  scan_spec (x :: y :: rest) =
  if (x =? y) && negb (x =? 0) then
    ((x + y) :: 0 :: fst (scan_spec rest), (x + y) + snd (scan_spec rest))
  else (x :: fst (scan_spec (y :: rest)), snd (scan_spec (y :: rest))).
Proof.
  cbn [scan_spec]. destruct ((x =? y) && negb (x =? 0)).
  - destruct (scan_spec rest); reflexivity.
  - destruct rest as [|z rest']; [reflexivity|].
    match goal with
    | |- (let '(_, _) := ?e in _) = _ => destruct e; reflexivity
    end.
Qed.

Lemma merge_loop_from (n : nat) :
  forall (s p : Line) (acc : Z),
    (length s <= n)%nat -> zero_free s ->
    fold_left merge_step (seq (length p) (length s - 1)) (p ++ s, acc) =
    (p ++ fst (scan_spec s), acc + snd (scan_spec s)).
Proof.
  induction n as [|n IH]; intros s p acc Hn Hz.
  - destruct s; simpl in Hn; [|lia]. simpl. now rewrite Z.add_0_r.
  - destruct s as [|x [|y rest]]; try (simpl; now rewrite Z.add_0_r).
    assert (Hx : x <> 0) by (inversion Hz; assumption).
    assert (Hz1 : zero_free (y :: rest)) by (inversion Hz; assumption).
    assert (Hz2 : zero_free rest) by (inversion Hz1; assumption).
    replace (length (x :: y :: rest) - 1)%nat with (S (length rest))
      by (simpl; lia).
    rewrite <- cons_seq. cbn [fold_left]. rewrite merge_step_at.
    rewrite scan_spec_cons2.
    destruct (Z.eqb_spec x y) as [<-|Hxy].
    + replace (negb (x =? 0)) with true
        by (symmetry; apply negb_true_iff, Z.eqb_neq; exact Hx).
      cbn [andb].
      destruct rest as [|z rest'].
      * simpl. f_equal; [f_equal; f_equal; lia | lia].
      * assert (Hzz : z <> 0) by (inversion Hz2; assumption).
        cbn [length]. rewrite <- cons_seq. cbn [fold_left].
        replace (p ++ x * 2 :: 0 :: z :: rest')
          with ((p ++ [x * 2]) ++ 0 :: z :: rest')
          by (rewrite <- app_assoc; reflexivity).
        replace (S (length p)) with (length (p ++ [x * 2]))
          by (rewrite length_app; simpl; lia).
        rewrite merge_step_at.
        replace (0 =? z) with false by (symmetry; apply Z.eqb_neq; lia).
        replace ((p ++ [x * 2]) ++ 0 :: z :: rest')
          with ((p ++ [x * 2; 0]) ++ z :: rest')
          by (rewrite <- !app_assoc; reflexivity).
        replace (S (length (p ++ [x * 2])))
          with (length (p ++ [x * 2; 0]))
          by (rewrite !length_app; simpl; lia).
        replace (length rest') with (length (z :: rest') - 1)%nat
          by (simpl; lia).
        rewrite IH; [|simpl in *; lia|exact Hz2].
        cbn [fst snd]. rewrite <- app_assoc. simpl.
        f_equal; [f_equal; f_equal; lia | lia].
    + cbn [andb].
      replace (p ++ x :: y :: rest) with ((p ++ [x]) ++ y :: rest)
        by (rewrite <- app_assoc; reflexivity).
      replace (S (length p)) with (length (p ++ [x]))
        by (rewrite length_app; simpl; lia).
      replace (length rest) with (length (y :: rest) - 1)%nat
        by (simpl; lia).
      rewrite IH; [|simpl in *; lia|exact Hz1].
      cbn [fst snd]. rewrite <- app_assoc. reflexivity.
Qed.

Lemma merge_loop_scan (l : Line) :
  zero_free l -> merge_loop l = scan_spec l.
Proof.
  intros Hz. unfold merge_loop.
  pose proof (merge_loop_from (length l) l [] 0 (Nat.le_refl _) Hz) as H.
  etransitivity; [exact H|]. destruct (scan_spec l); reflexivity.
Qed.

Lemma merge_tiles_spec (line : Line) :
  merge_tiles line = compress_and_merge_spec line.
Proof.
  unfold merge_tiles, compress_and_merge_spec.
  rewrite merge_loop_scan by apply remove_zeros_zero_free.
  reflexivity.
Qed.

(** ** What the single pass keeps: length, sum and tile values *)

Lemma pairs_ind (P : Line -> Prop) :
  P [] -> (forall x, P [x]) ->
  (forall x y rest, P rest -> P (y :: rest) -> P (x :: y :: rest)) ->
  forall l, P l.
Proof.
  intros H0 H1 H2 l.
  assert (H : P l /\ forall x, P (x :: l)); [|exact (proj1 H)].
  induction l as [|y rest [IHa IHb]]; split; auto.
Qed.

Lemma scan_spec_length (l : Line) : length (fst (scan_spec l)) = length l.
Proof.
  induction l as [| x | x y rest IH1 IH2] using pairs_ind; try reflexivity.
  rewrite scan_spec_cons2.
  destruct ((x =? y) && negb (x =? 0)); cbn [fst length] in *; congruence.
Qed.

Lemma scan_spec_sum (l : Line) : line_sum (fst (scan_spec l)) = line_sum l.
Proof.
  induction l as [| x | x y rest IH1 IH2] using pairs_ind; try reflexivity.
  rewrite scan_spec_cons2.
  unfold line_sum in *.
  destruct ((x =? y) && negb (x =? 0)); cbn [fst fold_right] in *; lia.
Qed.

Lemma is_tile_double (x : Z) : is_tile x -> is_tile (x + x).
Proof.
  intros [->|[k ->]]; [left; reflexivity|right].
  exists (S k). rewrite (Nat2Z.inj_succ (S k)), Z.pow_succ_r by lia. lia.
Qed.

Lemma scan_spec_tiles (l : Line) :
  Forall is_tile l -> Forall is_tile (fst (scan_spec l)).
Proof.
  induction l as [| x | x y rest IH1 IH2] using pairs_ind; intros H;
    try exact H.
  rewrite scan_spec_cons2.
  inversion H as [|? ? Hx Hrest]; subst.
  inversion Hrest as [|? ? Hy Hrest']; subst.
  destruct ((x =? y) && negb (x =? 0)) eqn:E; cbn [fst].
  - apply andb_true_iff in E. destruct E as [E _].
    apply Z.eqb_eq in E. subst y.
    constructor; [apply is_tile_double; exact Hx|].
    constructor; [left; reflexivity | apply IH1; exact Hrest'].
  - constructor; auto.
Qed.

Lemma remove_zeros_sum (l : Line) : line_sum (remove_zeros l) = line_sum l.
Proof.
  induction l as [|x l IH]; [reflexivity|]. simpl.
  destruct (Z.eqb_spec x 0); simpl; unfold remove_zeros, line_sum in *; lia.
Qed.

Lemma remove_zeros_length (l : Line) :
  (length (remove_zeros l) <= length l)%nat.
Proof.
  induction l as [|x l IH]; [simpl; lia|]. simpl.
  destruct (x =? 0); simpl; unfold remove_zeros in *; lia.
Qed.

Lemma line_sum_app (l1 l2 : Line) :
  line_sum (l1 ++ l2) = line_sum l1 + line_sum l2.
Proof. induction l1; simpl; unfold line_sum in *; simpl; lia. Qed.

Lemma line_sum_zeros (n : nat) : line_sum (repeat 0 n) = 0.
Proof. induction n; simpl; unfold line_sum in *; simpl; lia. Qed.

Lemma line_sum_rev (l : Line) : line_sum (rev l) = line_sum l.
Proof.
  induction l as [|x l IH]; [reflexivity|]. simpl.
  rewrite line_sum_app, IH. unfold line_sum; simpl; lia.
Qed.

Lemma merge_tiles_fst (line : Line) :
  fst (merge_tiles line) =
  remove_zeros (fst (scan_spec (remove_zeros line)))
  ++ repeat 0 (GRID_WIDTH
               - length (remove_zeros (fst (scan_spec (remove_zeros line))))).
Proof.
  rewrite merge_tiles_spec. unfold compress_and_merge_spec.
  destruct (scan_spec (remove_zeros line)); reflexivity.
Qed.

Lemma merge_tiles_sum (line : Line) :
  line_sum (fst (merge_tiles line)) = line_sum line.
Proof.
  rewrite merge_tiles_fst, line_sum_app, line_sum_zeros, remove_zeros_sum,
    scan_spec_sum, remove_zeros_sum.
  lia.
Qed.

Lemma merge_tiles_length (line : Line) :
  (length line <= GRID_WIDTH)%nat ->
  length (fst (merge_tiles line)) = GRID_WIDTH.
Proof.
  intros H. rewrite merge_tiles_fst, length_app, repeat_length.
  pose proof (remove_zeros_length (fst (scan_spec (remove_zeros line)))).
  pose proof (remove_zeros_length line).
  rewrite scan_spec_length in *. lia.
Qed.

Lemma merge_tiles_tiles (line : Line) :
  Forall is_tile line -> Forall is_tile (fst (merge_tiles line)).
Proof.
  intros H. rewrite merge_tiles_fst. apply Forall_app. split.
  - apply Forall_forall. intros x Hx. apply filter_In in Hx.
    destruct Hx as [Hx _]. revert x Hx. apply Forall_forall.
    apply scan_spec_tiles. apply Forall_forall. intros x Hx.
    apply filter_In in Hx. destruct Hx as [Hx _]. revert x Hx.
    apply Forall_forall. exact H.
  - apply Forall_forall. intros x Hx. apply repeat_spec in Hx.
    left; exact Hx.
Qed.

(** ** Rows of four cells *)

Ltac split_eqb :=
  repeat (match goal with
          | |- context [Z.eqb ?x ?y] => destruct (Z.eqb_spec x y)
          end;
          cbn [negb andb orb filter remove_zeros scan_spec fst snd app
               length repeat Nat.sub GRID_WIDTH nth];
          try (exfalso; lia)).

Ltac unfold_slide :=
  unfold slide_left; rewrite merge_tiles_spec;
  unfold compress_and_merge_spec;
  cbn [negb andb orb filter remove_zeros scan_spec fst snd app
       length repeat Nat.sub GRID_WIDTH nth].

(** A row that the merge rewrites ends with an empty cell. *)
Lemma slide_left_fixed_or_zero (a b c d : Z) :
  slide_left [a; b; c; d] = [a; b; c; d]
  \/ nth 3 (slide_left [a; b; c; d]) 0 = 0.
Proof.
  unfold_slide. split_eqb;
    first [ right; reflexivity | left; repeat f_equal; lia ].
Qed.

Lemma slide_left_fixed_packed (a b c d : Z) :
  slide_left [a; b; c; d] = [a; b; c; d] -> packed_unmergeable a b c d.
Proof.
  unfold packed_unmergeable. unfold_slide. split_eqb;
    (intros E; try (injection E; intros); repeat split; intros; lia).
Qed.

Lemma packed_slide_left_fixed (a b c d : Z) :
  packed_unmergeable a b c d -> slide_left [a; b; c; d] = [a; b; c; d].
Proof.
  intros L.
  assert (H : (a = 0 /\ b = 0 /\ c = 0 /\ d = 0)
              \/ (a <> 0 /\ b = 0 /\ c = 0 /\ d = 0)
              \/ (a <> 0 /\ b <> 0 /\ a <> b /\ c = 0 /\ d = 0)
              \/ (a <> 0 /\ b <> 0 /\ c <> 0 /\ a <> b /\ b <> c /\ d = 0)
              \/ (a <> 0 /\ b <> 0 /\ c <> 0 /\ d <> 0
                  /\ a <> b /\ b <> c /\ c <> d)).
  { unfold packed_unmergeable in L.
    destruct (Z.eq_dec a 0), (Z.eq_dec b 0), (Z.eq_dec c 0), (Z.eq_dec d 0);
      intuition lia. }
  clear L.
  destruct H as [H|[H|[H|[H|H]]]]; decompose [and] H; clear H; subst;
    unfold_slide; split_eqb; reflexivity.
Qed.

Lemma slide_left_fixed_iff (a b c d : Z) :
  slide_left [a; b; c; d] = [a; b; c; d] <-> packed_unmergeable a b c d.
Proof.
  split; [apply slide_left_fixed_packed | apply packed_slide_left_fixed].
Qed.

Lemma slide_right_fixed_iff (a b c d : Z) :
  slide_right [a; b; c; d] = [a; b; c; d] <-> packed_unmergeable d c b a.
Proof.
  unfold slide_right. change (rev [a; b; c; d]) with [d; c; b; a].
  rewrite <- slide_left_fixed_iff. unfold slide_left. split; intros H.
  - rewrite <- (rev_involutive (fst (merge_tiles [d; c; b; a]))), H.
    reflexivity.
  - rewrite H. reflexivity.
Qed.

(** A row that neither slide rewrites is empty or stuck. *)
Lemma both_slides_fixed (a b c d : Z) :
  packed_unmergeable a b c d /\ packed_unmergeable d c b a <->
  row_empty a b c d \/ row_stuck a b c d.
Proof.
  unfold packed_unmergeable, row_empty, row_stuck. split.
  - intros [(L1 & L2 & L3 & L4 & L5 & L6) (M1 & M2 & M3 & _)].
    destruct (Z.eq_dec a 0) as [Ha|Ha]; [left; tauto|right].
    assert (Hb : b <> 0) by tauto.
    assert (Hc : c <> 0) by tauto.
    assert (Hd : d <> 0) by tauto.
    tauto.
  - intros [(-> & -> & -> & ->) | (Ha & Hb & Hc & Hd & Hab & Hbc & Hcd)];
      repeat split; intros; congruence.
Qed.

Lemma row_both_fixed (a b c d : Z) :
  slide_left [a; b; c; d] = [a; b; c; d]
  /\ slide_right [a; b; c; d] = [a; b; c; d]
  <-> row_empty a b c d \/ row_stuck a b c d.
Proof.
  rewrite slide_left_fixed_iff, slide_right_fixed_iff.
  apply both_slides_fixed.
Qed.

(** ** Grids of four rows of four cells *)

Ltac four_cells r :=
  destruct r as [|? [|? [|? [|? [|? ?]]]]]; try discriminate.

Lemma row_of_four (row : Line) :
  length row = GRID_WIDTH -> exists a b c d, row = [a; b; c; d].
Proof. intros H. four_cells row. repeat eexists. Qed.

Lemma well_shaped_rows (g : Grid) :
  well_shaped g = true ->
  exists r0 r1 r2 r3,
    g = [r0; r1; r2; r3] /\ length r0 = GRID_WIDTH /\ length r1 = GRID_WIDTH
    /\ length r2 = GRID_WIDTH /\ length r3 = GRID_WIDTH.
Proof.
  unfold well_shaped. intros H. apply andb_true_iff in H.
  destruct H as [Hl Hr]. apply Nat.eqb_eq in Hl.
  destruct g as [|r0 [|r1 [|r2 [|r3 [|? ?]]]]]; try discriminate.
  simpl in Hr. repeat (apply andb_true_iff in Hr; destruct Hr as [? Hr]).
  exists r0, r1, r2, r3. repeat split; try apply Nat.eqb_eq; assumption.
Qed.

Lemma well_shaped_inv (g : Grid) :
  well_shaped g = true ->
  exists a0 a1 a2 a3 b0 b1 b2 b3 c0 c1 c2 c3 d0 d1 d2 d3,
    g = [[a0; a1; a2; a3]; [b0; b1; b2; b3];
         [c0; c1; c2; c3]; [d0; d1; d2; d3]].
Proof.
  intros H. destruct (well_shaped_rows g H) as (r0 & r1 & r2 & r3 & -> & H0 & H1 & H2 & H3).
  four_cells r0. four_cells r1. four_cells r2. four_cells r3.
  repeat eexists.
Qed.

Ltac explicit_grid g H :=
  let a0 := fresh "a0" in let a1 := fresh "a1" in
  let a2 := fresh "a2" in let a3 := fresh "a3" in
  let b0 := fresh "b0" in let b1 := fresh "b1" in
  let b2 := fresh "b2" in let b3 := fresh "b3" in
  let c0 := fresh "c0" in let c1 := fresh "c1" in
  let c2 := fresh "c2" in let c3 := fresh "c3" in
  let d0 := fresh "d0" in let d1 := fresh "d1" in
  let d2 := fresh "d2" in let d3 := fresh "d3" in
  destruct (well_shaped_inv g H)
    as (a0 & a1 & a2 & a3 & b0 & b1 & b2 & b3
        & c0 & c1 & c2 & c3 & d0 & d1 & d2 & d3 & ->).

Lemma zip_star_involutive (g : Grid) :
  well_shaped g = true -> zip_star (zip_star g) = g.
Proof. intros H. explicit_grid g H. reflexivity. Qed.

Lemma zip_star_shaped (g : Grid) :
  well_shaped g = true -> well_shaped (zip_star g) = true.
Proof. intros H. explicit_grid g H. reflexivity. Qed.

Lemma cells_zip_star (g : Grid) (x : Z) :
  well_shaped g = true -> In x (cells (zip_star g)) <-> In x (cells g).
Proof. intros H. explicit_grid g H. simpl. tauto. Qed.

Lemma sum_zip_star (g : Grid) :
  well_shaped g = true ->
  line_sum (cells (zip_star g)) = line_sum (cells g).
Proof. intros H. explicit_grid g H. simpl. lia. Qed.

Lemma map_shaped (f : Line -> Line) (g : Grid) :
  (forall row, length row = GRID_WIDTH -> length (f row) = GRID_WIDTH) ->
  well_shaped g = true -> well_shaped (map f g) = true.
Proof.
  intros Hf H.
  destruct (well_shaped_rows g H) as (r0 & r1 & r2 & r3 & -> & H0 & H1 & H2 & H3).
  unfold well_shaped. cbn [map length forallb].
  rewrite !Hf by assumption. reflexivity.
Qed.

Lemma well_shaped_length (g : Grid) :
  well_shaped g = true -> length g = GRID_WIDTH.
Proof.
  unfold well_shaped. intros H. apply andb_true_iff in H.
  apply Nat.eqb_eq. exact (proj1 H).
Qed.

(** ** The changed flag compares the two grids *)

Lemma grid_updated_false_iff (g g' : Grid) :
  length g = length g' -> (grid_updated g g' = false <-> g = g').
Proof.
  unfold grid_updated. revert g'.
  induction g as [|r g IH]; intros [|r' g'] Hl; simpl in *;
    try discriminate; [tauto|].
  injection Hl as Hl. rewrite orb_false_iff, negb_false_iff, list_eqb_eq, IH by exact Hl.
  split; [intros [-> ->]; reflexivity | intros E; injection E; auto].
Qed.

Lemma grid_updated_true_iff (g g' : Grid) :
  length g = length g' -> (grid_updated g g' = true <-> g <> g').
Proof.
  intros Hl. rewrite <- (grid_updated_false_iff g g' Hl).
  destruct (grid_updated g g'); split; congruence.
Qed.

(** ** move_left and move_right, row by row *)

Lemma move_left_map (g : Grid) :
  move_left g = (map slide_left g,
                 line_sum (map (fun row => snd (merge_tiles row)) g)).
Proof.
  unfold move_left.
  assert (H : forall acc sc,
             fold_left
               (fun (acc : Grid * Z) (row : Line) =>
                  let '(new_grid, score) := acc in
                  let '(merged_row, row_score) := merge_tiles row in
                  (new_grid ++ [merged_row], score + row_score))
               g (acc, sc)
             = (acc ++ map slide_left g,
                sc + line_sum (map (fun row => snd (merge_tiles row)) g))).
  { induction g as [|row g IH]; intros acc sc; simpl.
    - now rewrite app_nil_r, Z.add_0_r.
    - unfold slide_left at 1. destruct (merge_tiles row) as [m s] eqn:E.
      rewrite IH, <- app_assoc. simpl. f_equal. unfold line_sum. lia. }
  rewrite H. reflexivity.
Qed.

Lemma move_right_map (g : Grid) :
  move_right g = (map slide_right g,
                  line_sum (map (fun row => snd (merge_tiles (rev row))) g)).
Proof.
  unfold move_right.
  assert (H : forall acc sc,
             fold_left
               (fun (acc : Grid * Z) (row : Line) =>
                  let '(new_grid, score) := acc in
                  let reversed_row := rev row in
                  let '(merged_row, row_score) := merge_tiles reversed_row in
                  (new_grid ++ [rev merged_row], score + row_score))
               g (acc, sc)
             = (acc ++ map slide_right g,
                sc + line_sum (map (fun row => snd (merge_tiles (rev row))) g))).
  { induction g as [|row g IH]; intros acc sc; simpl.
    - now rewrite app_nil_r, Z.add_0_r.
    - unfold slide_right at 1. destruct (merge_tiles (rev row)) as [m s] eqn:E.
      rewrite IH, <- app_assoc. simpl. f_equal. unfold line_sum. lia. }
  rewrite H. reflexivity.
Qed.

(** ** The two slides *)

Lemma slide_length (f : Line -> Line) (row : Line) :
  is_slide f -> length row = GRID_WIDTH -> length (f row) = GRID_WIDTH.
Proof.
  intros [-> | ->] H; unfold slide_left, slide_right.
  - apply merge_tiles_length. lia.
  - rewrite length_rev. apply merge_tiles_length. rewrite length_rev. lia.
Qed.

Lemma slide_fixed_or_zero (f : Line -> Line) (row : Line) :
  is_slide f -> length row = GRID_WIDTH -> f row = row \/ In 0 (f row).
Proof.
  intros Hf H. destruct (row_of_four row H) as (a & b & c & d & ->).
  destruct Hf as [-> | ->].
  - destruct (slide_left_fixed_or_zero a b c d) as [E|E]; [left; exact E|].
    right.
    assert (Hin : In (nth 3 (slide_left [a; b; c; d]) 0)
                     (slide_left [a; b; c; d])).
    { apply nth_In.
      rewrite (slide_length slide_left [a; b; c; d] (or_introl eq_refl) H).
      unfold GRID_WIDTH; lia. }
    rewrite E in Hin. exact Hin.
  - unfold slide_right. change (rev [a; b; c; d]) with [d; c; b; a].
    destruct (slide_left_fixed_or_zero d c b a) as [E|E];
      unfold slide_left in E.
    + left. rewrite E. reflexivity.
    + right. apply -> in_rev.
      assert (Hin : In (nth 3 (fst (merge_tiles [d; c; b; a])) 0)
                       (fst (merge_tiles [d; c; b; a]))).
      { apply nth_In.
        rewrite merge_tiles_length by (unfold GRID_WIDTH; simpl; lia).
        unfold GRID_WIDTH; lia. }
      rewrite E in Hin. exact Hin.
Qed.

Lemma slide_sum (f : Line -> Line) (row : Line) :
  is_slide f -> line_sum (f row) = line_sum row.
Proof.
  intros [-> | ->]; unfold slide_left, slide_right.
  - apply merge_tiles_sum.
  - now rewrite line_sum_rev, merge_tiles_sum, line_sum_rev.
Qed.

Lemma slide_tiles (f : Line -> Line) (row : Line) :
  is_slide f -> Forall is_tile row -> Forall is_tile (f row).
Proof.
  intros [-> | ->] H; unfold slide_left, slide_right.
  - apply merge_tiles_tiles, H.
  - apply Forall_rev, merge_tiles_tiles, Forall_rev, H.
Qed.

(** ** The grid after a move: its rows slid, or its columns *)

Lemma move_ok (g : Grid) (d : string) :
  in_wasd (Some d) = true ->
  exists f by_columns s,
    is_slide f /\
    move g d = Ok (slid f by_columns g, s, grid_updated g (slid f by_columns g)).
Proof.
  unfold in_wasd, move, move_up, move_down. intros H.
  rewrite move_left_map, move_right_map.
  destruct (String.eqb d "a") eqn:Ea.
  { exists slide_left, false. eexists. split; [left|]; reflexivity. }
  destruct (String.eqb d "d") eqn:Ed.
  { exists slide_right, false. eexists. split; [right|]; reflexivity. }
  rewrite move_left_map, move_right_map.
  destruct (String.eqb d "w") eqn:Ew.
  { exists slide_left, true. eexists. split; [left|]; reflexivity. }
  destruct (String.eqb d "s") eqn:Es.
  { exists slide_right, true. eexists. split; [right|]; reflexivity. }
  discriminate H.
Qed.

Lemma move_raises (g : Grid) (d : string) :
  in_wasd (Some d) = false -> move g d = Raise UnboundLocalError.
Proof.
  unfold in_wasd, move. intros H.
  repeat (apply orb_false_iff in H; destruct H as [H ?]).
  repeat match goal with E : String.eqb _ _ = false |- _ => rewrite E; clear E end.
  reflexivity.
Qed.

Lemma map_changed_has_empty (f : Line -> Line) (g : Grid) :
  (forall row, length row = GRID_WIDTH -> f row = row \/ In 0 (f row)) ->
  well_shaped g = true -> map f g <> g -> In 0 (cells (map f g)).
Proof.
  intros Hf H Hne.
  destruct (well_shaped_rows g H) as (r0 & r1 & r2 & r3 & -> & H0 & H1 & H2 & H3).
  unfold cells. cbn [map concat] in *. rewrite !in_app_iff.
  destruct (Hf r0 H0) as [E0|?]; [|tauto].
  destruct (Hf r1 H1) as [E1|?]; [|tauto].
  destruct (Hf r2 H2) as [E2|?]; [|tauto].
  destruct (Hf r3 H3) as [E3|?]; [|tauto].
  exfalso. apply Hne. rewrite E0, E1, E2, E3. reflexivity.
Qed.

Lemma map_cells_sum (f : Line -> Line) (g : Grid) :
  (forall row, line_sum (f row) = line_sum row) ->
  line_sum (cells (map f g)) = line_sum (cells g).
Proof.
  intros Hf. unfold cells. induction g as [|row g IH]; [reflexivity|].
  cbn [map concat]. rewrite !line_sum_app, Hf, IH. reflexivity.
Qed.

Lemma map_cells_tiles (f : Line -> Line) (g : Grid) :
  (forall row, Forall is_tile row -> Forall is_tile (f row)) ->
  Forall is_tile (cells g) -> Forall is_tile (cells (map f g)).
Proof.
  intros Hf. unfold cells. induction g as [|row g IH]; [trivial|].
  cbn [map concat]. rewrite !Forall_app. intros [Hr Hg]. auto.
Qed.

Lemma slid_shaped (f : Line -> Line) (bc : bool) (g : Grid) :
  is_slide f -> well_shaped g = true -> well_shaped (slid f bc g) = true.
Proof.
  intros Hf H. destruct bc; unfold slid.
  - apply zip_star_shaped, map_shaped; [intro; now apply slide_length|].
    now apply zip_star_shaped.
  - apply map_shaped; [intro; now apply slide_length | exact H].
Qed.

Lemma slid_changed_has_empty (f : Line -> Line) (bc : bool) (g : Grid) :
  is_slide f -> well_shaped g = true ->
  slid f bc g <> g -> In 0 (cells (slid f bc g)).
Proof.
  intros Hf H Hne. destruct bc; unfold slid in *.
  - apply cells_zip_star.
    + apply map_shaped; [intro; now apply slide_length|].
      now apply zip_star_shaped.
    + apply map_changed_has_empty.
      * intro; now apply slide_fixed_or_zero.
      * now apply zip_star_shaped.
      * intros E. apply Hne. rewrite E. now apply zip_star_involutive.
  - apply map_changed_has_empty; [|exact H|exact Hne].
    intro; now apply slide_fixed_or_zero.
Qed.

Lemma slid_sum (f : Line -> Line) (bc : bool) (g : Grid) :
  is_slide f -> well_shaped g = true ->
  line_sum (cells (slid f bc g)) = line_sum (cells g).
Proof.
  intros Hf H. destruct bc; unfold slid.
  - rewrite sum_zip_star.
    + rewrite map_cells_sum by (intro; now apply slide_sum).
      now apply sum_zip_star.
    + apply map_shaped; [intro; now apply slide_length|].
      now apply zip_star_shaped.
  - apply map_cells_sum. intro; now apply slide_sum.
Qed.

Lemma slid_tiles (f : Line -> Line) (bc : bool) (g : Grid) :
  is_slide f -> well_shaped g = true ->
  Forall is_tile (cells g) -> Forall is_tile (cells (slid f bc g)).
Proof.
  intros Hf H Ht. destruct bc; unfold slid.
  - assert (Hs : well_shaped (map f (zip_star g)) = true).
    { apply map_shaped; [intro; now apply slide_length|].
      now apply zip_star_shaped. }
    apply Forall_forall. intros x Hx.
    apply (proj1 (cells_zip_star _ x Hs)) in Hx.
    revert x Hx. apply Forall_forall. apply map_cells_tiles.
    + intro; now apply slide_tiles.
    + apply Forall_forall. intros x Hx.
      apply (proj1 (cells_zip_star _ x H)) in Hx.
      revert x Hx. apply Forall_forall. exact Ht.
  - apply map_cells_tiles; [|exact Ht]. intro; now apply slide_tiles.
Qed.

(** ** Cells by index, and the grid with one cell rewritten *)

Ltac below_four i :=
  destruct i as [|[|[|[|i]]]];
  try (exfalso;
       match goal with
       | H : (_ < _)%nat |- _ => clear - H; unfold GRID_WIDTH in H; lia
       end).

Lemma grid_get_shaped (g : Grid) (i j : nat) :
  well_shaped g = true -> (i < GRID_WIDTH)%nat -> (j < GRID_WIDTH)%nat ->
  grid_get g i j = Ok (cell g i j).
Proof.
  intros H Hi Hj. explicit_grid g H. below_four i; below_four j; reflexivity.
Qed.

Lemma grid_set_shaped (g : Grid) (i j : nat) (v : Z) :
  well_shaped g = true -> (i < GRID_WIDTH)%nat -> (j < GRID_WIDTH)%nat ->
  grid_set g i j v = Ok (place g i j v).
Proof.
  intros H Hi Hj. explicit_grid g H. below_four i; below_four j; reflexivity.
Qed.

Lemma place_shaped (g : Grid) (i j : nat) (v : Z) :
  well_shaped g = true -> (i < GRID_WIDTH)%nat -> (j < GRID_WIDTH)%nat ->
  well_shaped (place g i j v) = true.
Proof.
  intros H Hi Hj. explicit_grid g H. below_four i; below_four j; reflexivity.
Qed.

Lemma cells_place (g : Grid) (i j : nat) (v : Z) :
  well_shaped g = true -> (i < GRID_WIDTH)%nat -> (j < GRID_WIDTH)%nat ->
  cells (place g i j v) = list_set (cells g) (i * GRID_WIDTH + j) v.
Proof.
  intros H Hi Hj. explicit_grid g H. below_four i; below_four j; reflexivity.
Qed.

Lemma cells_nth (g : Grid) (i j : nat) :
  well_shaped g = true -> (i < GRID_WIDTH)%nat -> (j < GRID_WIDTH)%nat ->
  nth (i * GRID_WIDTH + j) (cells g) 0 = cell g i j.
Proof.
  intros H Hi Hj. explicit_grid g H. below_four i; below_four j; reflexivity.
Qed.

Lemma cells_length (g : Grid) :
  well_shaped g = true -> length (cells g) = (GRID_WIDTH * GRID_WIDTH)%nat.
Proof. intros H. explicit_grid g H. reflexivity. Qed.

Lemma cell_in_cells (g : Grid) (i j : nat) :
  well_shaped g = true -> (i < GRID_WIDTH)%nat -> (j < GRID_WIDTH)%nat ->
  In (cell g i j) (cells g).
Proof.
  intros H Hi Hj. rewrite <- cells_nth by assumption.
  apply nth_In. rewrite cells_length by assumption.
  unfold GRID_WIDTH in *. lia.
Qed.

Lemma in_cells_cell (g : Grid) (x : Z) :
  well_shaped g = true -> In x (cells g) ->
  exists i j, (i < GRID_WIDTH)%nat /\ (j < GRID_WIDTH)%nat /\ cell g i j = x.
Proof.
  intros H Hx. apply (In_nth _ _ 0) in Hx. destruct Hx as (k & Hk & Hx).
  rewrite cells_length in Hk by assumption.
  exists (k / GRID_WIDTH)%nat, (k mod GRID_WIDTH)%nat.
  assert (Hd : k = ((k / GRID_WIDTH) * GRID_WIDTH + k mod GRID_WIDTH)%nat).
  { rewrite Nat.mul_comm. apply Nat.div_mod_eq. }
  assert (Hi : (k / GRID_WIDTH < GRID_WIDTH)%nat).
  { apply Nat.Div0.div_lt_upper_bound. exact Hk. }
  assert (Hj : (k mod GRID_WIDTH < GRID_WIDTH)%nat).
  { apply Nat.mod_upper_bound. discriminate. }
  repeat split; try assumption.
  rewrite <- cells_nth by assumption. rewrite <- Hd. exact Hx.
Qed.

Lemma list_set_count (l : Line) (k : nat) (v : Z) :
  (k < length l)%nat -> nth k l 0 = 0 -> v <> 0 ->
  length (remove_zeros (list_set l k v)) = S (length (remove_zeros l)).
Proof.
  revert k. induction l as [|x l IH]; intros k Hk Hn Hv; simpl in Hk; [lia|].
  destruct k as [|k]; simpl in *.
  - subst x. simpl. destruct (Z.eqb_spec v 0); [contradiction|reflexivity].
  - destruct (x =? 0); simpl; rewrite <- (IH k); try reflexivity;
      try assumption; lia.
Qed.

Lemma list_set_Forall {A : Type} (P : A -> Prop) (l : list A) (k : nat) (v : A) :
  P v -> Forall P l -> Forall P (list_set l k v).
Proof.
  intros Hv. revert k. induction l as [|x l IH]; intros k H; [exact H|].
  inversion H; subst. destruct k; simpl; constructor; auto.
Qed.

(** ** add_tile *)

Lemma in_all_cells (p : nat * nat) :
  In p all_cells <-> (fst p < GRID_WIDTH)%nat /\ (snd p < GRID_WIDTH)%nat.
Proof.
  destruct p as [i j]. unfold all_cells. rewrite in_prod_iff, !in_seq.
  simpl. lia.
Qed.

Lemma select_empty_filter (g : Grid) (ps : list (nat * nat)) :
  well_shaped g = true ->
  (forall p, In p ps -> In p all_cells) ->
  select_empty g ps = Ok (filter (is_empty_cell g) ps).
Proof.
  intros H. induction ps as [|[i j] ps IH]; intros Hin; [reflexivity|].
  cbn [select_empty].
  assert (Hij : In (i, j) all_cells) by (apply Hin; left; reflexivity).
  apply in_all_cells in Hij. destruct Hij as [Hi Hj]. cbn [fst snd] in Hi, Hj.
  rewrite grid_get_shaped by assumption.
  rewrite IH by (intros p Hp; apply Hin; right; exact Hp).
  unfold bindR, Ok. cbn [filter].
  change (is_empty_cell g (i, j)) with (cell g i j =? 0).
  destruct (cell g i j =? 0); reflexivity.
Qed.

Lemma empty_tiles_filter (g : Grid) :
  well_shaped g = true ->
  empty_tiles g = Ok (filter (is_empty_cell g) all_cells).
Proof. intros H. apply select_empty_filter; auto. Qed.

Lemma filter_none {A : Type} (f : A -> bool) (l : list A) :
  (forall x, In x l -> f x = false) -> filter f l = [].
Proof.
  induction l as [|x l IH]; intros H; [reflexivity|]. simpl.
  rewrite (H x (or_introl eq_refl)). apply IH. intros y Hy. apply H.
  right; exact Hy.
Qed.

(** On a grid with an empty cell, add_tile takes two draws and writes a 2
    or a 4 into one empty cell. *)
Lemma add_tile_spawns (g : Grid) (r : RNG) :
  well_shaped g = true -> In 0 (cells g) ->
  exists i j v,
    (i < GRID_WIDTH)%nat /\ (j < GRID_WIDTH)%nat /\ cell g i j = 0
    /\ (v = 2 \/ v = 4)
    /\ add_tile g r = (Ok (place g i j v), advanced 2 r).
Proof.
  intros H Hz.
  destruct (in_cells_cell g 0 H Hz) as (i0 & j0 & Hi0 & Hj0 & Hc0).
  unfold add_tile, bindM, liftR. rewrite empty_tiles_filter by exact H.
  unfold Ok at 1.
  assert (Hin0 : In (i0, j0) (filter (is_empty_cell g) all_cells)).
  { apply filter_In. split; [apply in_all_cells; auto|].
    unfold is_empty_cell; simpl. apply Z.eqb_eq. exact Hc0. }
  destruct (filter (is_empty_cell g) all_cells) as [|p ps] eqn:E;
    [contradiction|].
  unfold random_choice, random_random, draw. cbn [tape pos].
  set (q := nth (tape r (pos r) mod length (p :: ps)) (p :: ps) p).
  assert (Hq : In q (filter (is_empty_cell g) all_cells)).
  { rewrite E. apply nth_In. apply Nat.mod_upper_bound. discriminate. }
  apply filter_In in Hq. destruct Hq as [Hq1 Hq2].
  apply in_all_cells in Hq1. destruct Hq1 as [Hi Hj].
  apply Z.eqb_eq in Hq2.
  unfold Ok at 1 2.
  rewrite grid_set_shaped by assumption.
  exists (fst q), (snd q).
  eexists. split; [exact Hi|]. split; [exact Hj|]. split; [exact Hq2|].
  split; [|reflexivity].
  destruct (Qltb _ _); [left|right]; reflexivity.
Qed.

(** On a grid with no empty cell, add_tile raises IndexError. *)
Lemma add_tile_full (g : Grid) (r : RNG) :
  well_shaped g = true -> ~ In 0 (cells g) ->
  add_tile g r = (Raise IndexError, r).
Proof.
  intros H Hz. unfold add_tile, bindM, liftR.
  rewrite empty_tiles_filter by exact H. unfold Ok at 1.
  replace (filter (is_empty_cell g) all_cells) with (@nil (nat * nat));
    [reflexivity|].
  symmetry. apply filter_none. intros p Hp. apply in_all_cells in Hp.
  destruct Hp as [Hi Hj]. apply Z.eqb_neq.
  intros E. apply Hz. rewrite <- E. now apply cell_in_cells.
Qed.

Lemma add_tile_ok_inv (g g' : Grid) (r r' : RNG) :
  well_shaped g = true -> add_tile g r = (Ok g', r') ->
  exists i j v,
    (i < GRID_WIDTH)%nat /\ (j < GRID_WIDTH)%nat /\ cell g i j = 0
    /\ (v = 2 \/ v = 4) /\ g' = place g i j v /\ r' = advanced 2 r.
Proof.
  intros H E. destruct (in_dec Z.eq_dec 0 (cells g)) as [Hz|Hz].
  - destruct (add_tile_spawns g r H Hz) as (i & j & v & Hi & Hj & Hc & Hv & E').
    rewrite E' in E. injection E as <- <-. exists i, j, v. auto 10.
  - rewrite (add_tile_full g r H Hz) in E. discriminate.
Qed.

Lemma place_tiles (g : Grid) (i j : nat) (v : Z) :
  well_shaped g = true -> (i < GRID_WIDTH)%nat -> (j < GRID_WIDTH)%nat ->
  is_tile v -> Forall is_tile (cells g) ->
  Forall is_tile (cells (place g i j v)).
Proof.
  intros H Hi Hj Hv Ht. rewrite cells_place by assumption.
  now apply list_set_Forall.
Qed.

Lemma place_count (g : Grid) (i j : nat) (v : Z) :
  well_shaped g = true -> (i < GRID_WIDTH)%nat -> (j < GRID_WIDTH)%nat ->
  cell g i j = 0 -> v <> 0 ->
  count_tiles (place g i j v) = S (count_tiles g).
Proof.
  intros H Hi Hj Hc Hv. unfold count_tiles.
  rewrite cells_place by assumption. apply list_set_count.
  - rewrite cells_length by assumption. unfold GRID_WIDTH in *. nia.
  - rewrite cells_nth by assumption. exact Hc.
  - exact Hv.
Qed.

Lemma is_tile_2 : is_tile 2.
Proof. right. exists 0%nat. reflexivity. Qed.

Lemma is_tile_4 : is_tile 4.
Proof. right. exists 1%nat. reflexivity. Qed.

(** ** new_game *)

Lemma place_on_empty_has_empty (i j : nat) (v : Z) :
  (i < GRID_WIDTH)%nat -> (j < GRID_WIDTH)%nat ->
  In 0 (cells (place empty_grid i j v)).
Proof. intros Hi Hj. below_four i; below_four j; simpl; auto. Qed.

Lemma new_game_two_tiles (r : RNG) :
  exists i1 j1 v1 i2 j2 v2,
    (i1 < GRID_WIDTH)%nat /\ (j1 < GRID_WIDTH)%nat /\ (v1 = 2 \/ v1 = 4) /\
    (i2 < GRID_WIDTH)%nat /\ (j2 < GRID_WIDTH)%nat /\ (v2 = 2 \/ v2 = 4) /\
    cell (place empty_grid i1 j1 v1) i2 j2 = 0 /\
    new_game r =
    (Ok (place (place empty_grid i1 j1 v1) i2 j2 v2), advanced 4 r).
Proof.
  unfold new_game, bindM, retM. fold empty_grid.
  assert (H0 : well_shaped empty_grid = true) by reflexivity.
  assert (Hz0 : In 0 (cells empty_grid)) by (simpl; auto).
  destruct (add_tile_spawns empty_grid r H0 Hz0)
    as (i1 & j1 & v1 & Hi1 & Hj1 & _ & Hv1 & E1).
  rewrite E1. unfold Ok at 1.
  assert (H1 : well_shaped (place empty_grid i1 j1 v1) = true)
    by now apply place_shaped.
  destruct (add_tile_spawns (place empty_grid i1 j1 v1) (advanced 2 r) H1
              (place_on_empty_has_empty i1 j1 v1 Hi1 Hj1))
    as (i2 & j2 & v2 & Hi2 & Hj2 & Hc2 & Hv2 & E2).
  rewrite E2. unfold Ok at 1.
  exists i1, j1, v1, i2, j2, v2. repeat split; assumption || reflexivity.
Qed.

(** The grid of a new game: four by four, two tiles, each a 2 or a 4. *)
Lemma new_game_grid (r : RNG) :
  exists g r',
    new_game r = (Ok g, r') /\ well_shaped g = true /\ count_tiles g = 2%nat
    /\ Forall (fun x => x = 0 \/ x = 2 \/ x = 4) (cells g).
Proof.
  destruct (new_game_two_tiles r)
    as (i1 & j1 & v1 & i2 & j2 & v2 & Hi1 & Hj1 & Hv1 & Hi2 & Hj2 & Hv2 & Hc & E).
  assert (H0 : well_shaped empty_grid = true) by reflexivity.
  assert (H1 : well_shaped (place empty_grid i1 j1 v1) = true)
    by now apply place_shaped.
  eexists. eexists. split; [exact E|]. split; [now apply place_shaped|]. split.
  - rewrite place_count; try assumption; [|lia].
    rewrite place_count; try assumption; try reflexivity; [|lia].
    + below_four i1; below_four j1; reflexivity.
  - rewrite cells_place by assumption. apply list_set_Forall; [lia|].
    rewrite cells_place by assumption. apply list_set_Forall; [lia|].
    simpl. repeat constructor.
Qed.

(** ** Two grids differ exactly when some cell differs *)

Lemma grid_ext (g g' : Grid) :
  well_shaped g = true -> well_shaped g' = true ->
  (forall i j, (i < GRID_WIDTH)%nat -> (j < GRID_WIDTH)%nat ->
               cell g' i j = cell g i j) ->
  g' = g.
Proof.
  intros H H' E. explicit_grid g H. explicit_grid g' H'.
  assert (L : forall n m, (n < 4)%nat -> (m < 4)%nat ->
                          (n < GRID_WIDTH)%nat /\ (m < GRID_WIDTH)%nat)
    by (unfold GRID_WIDTH; auto).
  pose proof (fun i j Hi Hj => E i j (proj1 (L i j Hi Hj)) (proj2 (L i j Hi Hj)))
    as E'.
  repeat match goal with
         | |- _ :: _ = _ :: _ => f_equal
         end;
    first [ apply (E' 0%nat 0%nat); lia | apply (E' 0%nat 1%nat); lia
          | apply (E' 0%nat 2%nat); lia | apply (E' 0%nat 3%nat); lia
          | apply (E' 1%nat 0%nat); lia | apply (E' 1%nat 1%nat); lia
          | apply (E' 1%nat 2%nat); lia | apply (E' 1%nat 3%nat); lia
          | apply (E' 2%nat 0%nat); lia | apply (E' 2%nat 1%nat); lia
          | apply (E' 2%nat 2%nat); lia | apply (E' 2%nat 3%nat); lia
          | apply (E' 3%nat 0%nat); lia | apply (E' 3%nat 1%nat); lia
          | apply (E' 3%nat 2%nat); lia | apply (E' 3%nat 3%nat); lia ].
Qed.

Lemma grids_differ_iff (g g' : Grid) :
  well_shaped g = true -> well_shaped g' = true ->
  g' <> g <->
  exists i j, (i < GRID_WIDTH)%nat /\ (j < GRID_WIDTH)%nat
              /\ cell g' i j <> cell g i j.
Proof.
  intros H H'. split.
  - intros Hne. destruct (existsb (differing_cell g g') all_cells) eqn:E.
    + apply existsb_exists in E. destruct E as ([i j] & Hin & Hd).
      apply in_all_cells in Hin. destruct Hin as [Hi Hj].
      apply negb_true_iff, Z.eqb_neq in Hd. exists i, j. auto.
    + exfalso. apply Hne. apply grid_ext; try assumption. intros i j Hi Hj.
      assert (Hd : differing_cell g g' (i, j) = false).
      { destruct (differing_cell g g' (i, j)) eqn:D; [|reflexivity].
        assert (X : existsb (differing_cell g g') all_cells = true).
        { apply existsb_exists. exists (i, j). split; [|exact D].
          apply in_all_cells. auto. }
        congruence. }
      apply negb_false_iff, Z.eqb_eq in Hd. exact Hd.
  - intros (i & j & _ & _ & Hd) E. apply Hd. rewrite E. reflexivity.
Qed.

(** * The engine: merge, move and spawn *)

(** C3: merge_tiles removes the zeros, makes one pass from the left in which
    a cell merges with its equal right neighbour at most once (the neighbour
    becomes empty and is passed over), removes the zeros again and pads to
    four cells, the score being the sum of the values the merges create:
    it computes what the specification's wording computes on every line,
    and [2,2,2,0], [2,2,2,2] and [0,0,2,2] give ([4,2,0,0], 4),
    ([4,4,0,0], 8) and ([4,0,0,0], 4). *)
Theorem merge_tiles_single_pass :
  (forall line, merge_tiles line = compress_and_merge_spec line)
  /\ (forall line, (length line <= GRID_WIDTH)%nat ->
                   length (fst (merge_tiles line)) = GRID_WIDTH)
  /\ merge_tiles [2; 2; 2; 0] = ([4; 2; 0; 0], 4)
  /\ merge_tiles [2; 2; 2; 2] = ([4; 4; 0; 0], 8)
  /\ merge_tiles [0; 0; 2; 2] = ([4; 0; 0; 0], 4).
Proof.
  split; [exact merge_tiles_spec|].
  split; [exact merge_tiles_length|].
  repeat split; reflexivity.
Qed.

Lemma merge_tiles_single_pass_witness :
  merge_tiles [2; 0; 2; 4] = compress_and_merge_spec [2; 0; 2; 4]
  /\ length (fst (merge_tiles [2; 0; 2; 4])) = GRID_WIDTH.
Proof.
  split.
  - exact (proj1 merge_tiles_single_pass [2; 0; 2; 4]).
  - apply (proj1 (proj2 merge_tiles_single_pass) [2; 0; 2; 4]).
    unfold GRID_WIDTH. simpl. lia.
Defined.

(** C5: on a four by four grid and for each of the four directions, the
    changed flag of move is true exactly when some cell of the returned grid
    differs from the same cell of the grid given; a move that only shifts a
    tile, with score 0, reports changed. *)
Theorem move_changed_iff_differs (g : Grid) (d : string) :
  well_shaped g = true -> in_wasd (Some d) = true ->
  (exists g' s changed,
      move g d = Ok (g', s, changed) /\
      (changed = true <->
       exists i j, (i < GRID_WIDTH)%nat /\ (j < GRID_WIDTH)%nat
                   /\ cell g' i j <> cell g i j))
  /\ move [[0; 2; 0; 0]; [0; 0; 0; 0]; [0; 0; 0; 0]; [0; 0; 0; 0]] "a"
     = Ok ([[2; 0; 0; 0]; [0; 0; 0; 0]; [0; 0; 0; 0]; [0; 0; 0; 0]], 0, true).
Proof.
  intros H Hd. split; [|reflexivity].
  destruct (move_ok g d Hd) as (f & bc & s & Hf & E).
  exists (slid f bc g), s, (grid_updated g (slid f bc g)).
  split; [exact E|].
  assert (Hs : well_shaped (slid f bc g) = true) by now apply slid_shaped.
  rewrite grid_updated_true_iff
    by (rewrite !well_shaped_length by assumption; reflexivity).
  rewrite <- grids_differ_iff by assumption.
  split; intros Hne E'; apply Hne; congruence.
Qed.

Lemma move_changed_iff_differs_witness :
  exists g' s changed,
    move [[2; 2; 0; 0]; [0; 0; 0; 0]; [0; 0; 0; 0]; [0; 0; 0; 0]] "d"
    = Ok (g', s, changed) /\
    (changed = true <->
     exists i j, (i < GRID_WIDTH)%nat /\ (j < GRID_WIDTH)%nat
                 /\ cell g' i j
                    <> cell [[2; 2; 0; 0]; [0; 0; 0; 0];
                             [0; 0; 0; 0]; [0; 0; 0; 0]] i j).
Proof.
  exact (proj1 (move_changed_iff_differs
                  [[2; 2; 0; 0]; [0; 0; 0; 0]; [0; 0; 0; 0]; [0; 0; 0; 0]]
                  "d" eq_refl eq_refl)).
Defined.

(** C7: on a four by four grid and for each of the four directions, the sum
    of the cells of the grid returned by move is the sum of the cells of the
    grid given. *)
Theorem move_conserves_sum (g : Grid) (d : string) :
  well_shaped g = true -> in_wasd (Some d) = true ->
  exists g' s changed,
    move g d = Ok (g', s, changed)
    /\ line_sum (cells g') = line_sum (cells g).
Proof.
  intros H Hd. destruct (move_ok g d Hd) as (f & bc & s & Hf & E).
  exists (slid f bc g), s, (grid_updated g (slid f bc g)).
  split; [exact E | now apply slid_sum].
Qed.

Lemma move_conserves_sum_witness :
  exists g' s changed,
    move [[2; 2; 4; 4]; [0; 8; 0; 8]; [2; 0; 0; 2]; [16; 2; 2; 16]] "s"
    = Ok (g', s, changed)
    /\ line_sum (cells g')
       = line_sum (cells [[2; 2; 4; 4]; [0; 8; 0; 8];
                          [2; 0; 0; 2]; [16; 2; 2; 16]]).
Proof.
  exact (move_conserves_sum
           [[2; 2; 4; 4]; [0; 8; 0; 8]; [2; 0; 0; 2]; [16; 2; 2; 16]]
           "s" eq_refl eq_refl).
Defined.

(** C9: when every cell of a four by four grid is empty or a power of two
    that is at least 2, so is every cell of the grid returned by move in
    each of the four directions; add_tile, when it returns, has written a 2
    or a 4 into one empty cell and nothing else, which keeps the invariant;
    and the grid of new_game satisfies it. *)
Theorem tiles_invariant_preserved :
  (forall g d,
      well_shaped g = true -> Forall is_tile (cells g) ->
      in_wasd (Some d) = true ->
      exists g' s changed,
        move g d = Ok (g', s, changed) /\ Forall is_tile (cells g'))
  /\ (forall g r g' r',
         well_shaped g = true -> add_tile g r = (Ok g', r') ->
         (exists i j v,
             (i < GRID_WIDTH)%nat /\ (j < GRID_WIDTH)%nat /\ cell g i j = 0
             /\ (v = 2 \/ v = 4) /\ g' = place g i j v)
         /\ (Forall is_tile (cells g) -> Forall is_tile (cells g')))
  /\ (forall r, exists g' r',
         new_game r = (Ok g', r') /\ Forall is_tile (cells g')).
Proof.
  split; [|split].
  - intros g d H Ht Hd. destruct (move_ok g d Hd) as (f & bc & s & Hf & E).
    exists (slid f bc g), s, (grid_updated g (slid f bc g)).
    split; [exact E | now apply slid_tiles].
  - intros g r g' r' H E.
    destruct (add_tile_ok_inv g g' r r' H E)
      as (i & j & v & Hi & Hj & Hc & Hv & -> & _).
    split; [exists i, j, v; auto 10|].
    intros Ht. apply place_tiles; try assumption.
    destruct Hv as [-> | ->]; [apply is_tile_2 | apply is_tile_4].
  - intros r. destruct (new_game_grid r) as (g' & r' & E & _ & _ & Hc).
    exists g', r'. split; [exact E|].
    apply Forall_forall. intros x Hx.
    apply (proj1 (Forall_forall _ _) Hc) in Hx.
    destruct Hx as [-> | [-> | ->]];
      [left; reflexivity | apply is_tile_2 | apply is_tile_4].
Qed.

Lemma tiles_invariant_preserved_witness :
  exists g' s changed,
    move [[2; 2; 4; 4]; [0; 8; 0; 8]; [2; 0; 0; 2]; [16; 2; 2; 16]] "w"
    = Ok (g', s, changed) /\ Forall is_tile (cells g').
Proof.
  refine (proj1 tiles_invariant_preserved
            [[2; 2; 4; 4]; [0; 8; 0; 8]; [2; 0; 0; 2]; [16; 2; 2; 16]]
            "w"%string eq_refl _ eq_refl).
  simpl.
  repeat (constructor;
          [first [ left; reflexivity
                 | right; exists 0%nat; reflexivity
                 | right; exists 1%nat; reflexivity
                 | right; exists 2%nat; reflexivity
                 | right; exists 3%nat; reflexivity ]|]).
  constructor.
Defined.

(** C2: on a four by four grid with no empty cell add_tile raises
    IndexError; when move in one of the four directions reports a change,
    the grid it returns has an empty cell, so add_tile on it returns; and
    no exception escapes move_tiles on a session whose grid is four by
    four. *)
Theorem add_tile_failure_unreachable (g : Grid) :
  well_shaped g = true ->
  (~ In 0 (cells g) -> forall r, add_tile g r = (Raise IndexError, r))
  /\ (forall d g' s,
         in_wasd (Some d) = true -> move g d = Ok (g', s, true) ->
         well_shaped g' = true /\ In 0 (cells g')
         /\ forall r, exists spawned, add_tile g' r = (Ok spawned, advanced 2 r))
  /\ (forall form_direction direction sc hs r e,
         fst (move_tiles form_direction direction
                {| GAME_STATE := {| grid := g; score := sc; high_score := hs |};
                   random := r |})
         <> Raised e).
Proof.
  intros H.
  assert (Hmove : forall d g' s,
             in_wasd (Some d) = true -> move g d = Ok (g', s, true) ->
             well_shaped g' = true /\ In 0 (cells g')).
  { intros d g' s Hd E. destruct (move_ok g d Hd) as (f & bc & s' & Hf & E').
    rewrite E' in E. injection E as <- <- Hch.
    assert (Hs : well_shaped (slid f bc g) = true) by now apply slid_shaped.
    split; [exact Hs|]. apply slid_changed_has_empty; try assumption.
    intros Eq. apply (grid_updated_true_iff g (slid f bc g)) in Hch; [|].
    - apply Hch. symmetry. exact Eq.
    - rewrite !well_shaped_length by assumption. reflexivity. }
  split; [|split].
  - intros Hz r. now apply add_tile_full.
  - intros d g' s Hd E. destruct (Hmove d g' s Hd E) as [Hs Hz].
    repeat split; try assumption. intros r.
    destruct (add_tile_spawns g' r Hs Hz) as (i & j & v & _ & _ & _ & _ & E').
    eexists. exact E'.
  - intros form direction sc hs r e. unfold move_tiles.
    set (dir := if falsy direction then form else direction).
    destruct dir as [d|] eqn:Edir; [|destruct (falsy None); discriminate].
    destruct (in_wasd (Some d)) eqn:Hd;
      [|destruct (falsy (Some d)); discriminate].
    unfold update_game_data. cbn [GAME_STATE grid score high_score random].
    destruct (move_ok g d Hd) as (f & bc & s & Hf & E). rewrite E.
    unfold Ok at 1.
    destruct (grid_updated g (slid f bc g)) eqn:Hch.
    + destruct (Hmove d _ _ Hd E) as [Hs Hz].
      destruct (add_tile_spawns (slid f bc g) r Hs Hz)
        as (i & j & v & _ & _ & _ & _ & E').
      rewrite E'. unfold Ok at 1.
      destruct (falsy (Some d)); discriminate.
    + destruct (falsy (Some d)); discriminate.
Qed.

Lemma add_tile_failure_unreachable_witness :
  add_tile [[2; 4; 2; 4]; [4; 2; 4; 2]; [2; 4; 2; 4]; [4; 2; 4; 8]]
           {| tape := sample_tape; pos := 0 |}
  = (Raise IndexError, {| tape := sample_tape; pos := 0 |})
  /\ In 0 (cells [[4; 0; 0; 0]; [0; 0; 0; 0]; [0; 0; 0; 0]; [0; 0; 0; 0]]).
Proof.
  split.
  - refine (proj1 (add_tile_failure_unreachable
                     [[2; 4; 2; 4]; [4; 2; 4; 2]; [2; 4; 2; 4]; [4; 2; 4; 8]]
                     eq_refl) _ _).
    simpl. intros H. repeat (destruct H as [H|H]; [discriminate H|]). exact H.
  - exact (proj1 (proj2 (proj1 (proj2 (add_tile_failure_unreachable
                     [[2; 2; 0; 0]; [0; 0; 0; 0]; [0; 0; 0; 0]; [0; 0; 0; 0]]
                     eq_refl))
                   "a"%string
                   [[4; 0; 0; 0]; [0; 0; 0; 0]; [0; 0; 0; 0]; [0; 0; 0; 0]]
                   4 eq_refl eq_refl))).
Defined.

(** * The session: move_tiles and restart_game *)

Lemma in_wasd_not_falsy (d : option string) :
  in_wasd d = true -> falsy d = false.
Proof.
  destruct d as [s|]; [|discriminate]. simpl.
  destruct (String.eqb_spec s ""); [subst; discriminate | reflexivity].
Qed.

(** C4: move_tiles with one of the four directions, on a session whose grid
    is four by four.  When move reports a change, one tile (a 2 or a 4) is
    written into an empty cell of the moved grid, the score grows by the
    score of the move and the high score becomes the larger of itself and
    the new score.  When move reports no change, nothing is drawn from the
    generator and the grid, the score and the high score keep their
    values. *)
Theorem move_tiles_valid_direction
  (form_direction direction : option string) (d : string) (w : World) :
  well_shaped (grid (GAME_STATE w)) = true ->
  effective form_direction direction = Some d ->
  in_wasd (Some d) = true ->
  exists g' s changed,
    move (grid (GAME_STATE w)) d = Ok (g', s, changed)
    /\ (changed = true ->
        exists i j v,
          (i < GRID_WIDTH)%nat /\ (j < GRID_WIDTH)%nat /\ cell g' i j = 0
          /\ (v = 2 \/ v = 4)
          /\ move_tiles form_direction direction w
             = (Returned,
                {| GAME_STATE :=
                     {| grid := place g' i j v;
                        score := score (GAME_STATE w) + s;
                        high_score := Z.max (high_score (GAME_STATE w))
                                            (score (GAME_STATE w) + s) |};
                   random := advanced 2 (random w) |}))
    /\ (changed = false ->
        g' = grid (GAME_STATE w)
        /\ move_tiles form_direction direction w = (Returned, w)).
Proof.
  intros H He Hd. destruct w as [[g sc hs] r].
  cbn [GAME_STATE grid score high_score random] in *.
  destruct (move_ok g d Hd) as (f & bc & s & Hf & E).
  exists (slid f bc g), s, (grid_updated g (slid f bc g)).
  split; [exact E|].
  assert (Hs : well_shaped (slid f bc g) = true) by now apply slid_shaped.
  assert (Hl : length g = length (slid f bc g))
    by (rewrite !well_shaped_length by assumption; reflexivity).
  unfold move_tiles, effective in *. rewrite He, Hd.
  rewrite (in_wasd_not_falsy _ Hd).
  unfold update_game_data. cbn [GAME_STATE grid score high_score random].
  rewrite E. unfold Ok. cbn beta iota.
  split; intros Hch; rewrite Hch.
  - assert (Hz : In 0 (cells (slid f bc g))).
    { apply slid_changed_has_empty; try assumption.
      apply (grid_updated_true_iff g _ Hl) in Hch. congruence. }
    destruct (add_tile_spawns (slid f bc g) r Hs Hz)
      as (i & j & v & Hi & Hj & Hc & Hv & E').
    exists i, j, v. repeat split; try assumption.
    rewrite E'. unfold Ok. cbn beta iota. repeat f_equal.
    destruct (Z.gtb_spec (sc + s) hs); lia.
  - apply (grid_updated_false_iff g _ Hl) in Hch.
    split; [symmetry; exact Hch|]. rewrite <- Hch. reflexivity.
Qed.

Lemma move_tiles_valid_direction_witness :
  exists g' s changed,
    move (grid (GAME_STATE sample_world)) "a" = Ok (g', s, changed)
    /\ (changed = true ->
        exists i j v,
          (i < GRID_WIDTH)%nat /\ (j < GRID_WIDTH)%nat /\ cell g' i j = 0
          /\ (v = 2 \/ v = 4)
          /\ move_tiles None (Some "a"%string) sample_world
             = (Returned,
                {| GAME_STATE :=
                     {| grid := place g' i j v;
                        score := score (GAME_STATE sample_world) + s;
                        high_score :=
                          Z.max (high_score (GAME_STATE sample_world))
                                (score (GAME_STATE sample_world) + s) |};
                   random := advanced 2 (random sample_world) |}))
    /\ (changed = false ->
        g' = grid (GAME_STATE sample_world)
        /\ move_tiles None (Some "a"%string) sample_world
           = (Returned, sample_world)).
Proof.
  exact (move_tiles_valid_direction None (Some "a"%string) "a" sample_world
           eq_refl eq_refl eq_refl).
Defined.

(** C6, as the code has it: with a direction that is none of the four
    letters, move_tiles leaves the session as it was (grid, score, high
    score and generator: no tile is spawned) and no IndexError or
    UnboundLocalError arises.  For a direction that is not empty it
    returns; for a missing or empty direction it does not return: it leaves
    through [redirect('/')], which raises bottle's HTTPResponse. *)
Theorem move_tiles_invalid_direction
  (form_direction direction : option string) (w : World) :
  in_wasd (effective form_direction direction) = false ->
  move_tiles form_direction direction w
  = (if falsy (effective form_direction direction)
     then Redirected "/" else Returned,
     w).
Proof.
  unfold move_tiles, effective. intros H.
  destruct (if falsy direction then form_direction else direction) as [d|];
    [rewrite H; destruct (falsy (Some d))|]; reflexivity.
Qed.

Lemma move_tiles_invalid_direction_witness :
  move_tiles None (Some "x"%string) sample_world = (Returned, sample_world)
  /\ move_tiles None None sample_world = (Redirected "/", sample_world).
Proof.
  split.
  - exact (move_tiles_invalid_direction None (Some "x"%string) sample_world
             eq_refl).
  - exact (move_tiles_invalid_direction None None sample_world eq_refl).
Defined.

(** C6 as stated fails on an empty direction: posted with an empty form
    field, move_tiles does not return but leaves through the redirect,
    that is by raising HTTPResponse. *)
Lemma move_tiles_invalid_direction_counterexample :
  ~ (in_wasd (effective (Some ""%string) None) = false ->
     fst (move_tiles (Some ""%string) None sample_world) = Returned).
Proof.
  intros H. specialize (H eq_refl). discriminate H.
Qed.

(** C8: restart_game returns with the score at 0, the high score as it was,
    and a new four by four grid with exactly two tiles, each a 2 or a 4, all
    other cells being empty. *)
Theorem restart_game_resets (w : World) :
  exists g r,
    restart_game w
    = (Returned,
       {| GAME_STATE := {| grid := g; score := 0;
                           high_score := high_score (GAME_STATE w) |};
          random := r |})
    /\ well_shaped g = true
    /\ count_tiles g = 2%nat
    /\ Forall (fun x => x = 0 \/ x = 2 \/ x = 4) (cells g).
Proof.
  destruct (new_game_grid (random w)) as (g & r & E & Hs & Hc & Hv).
  exists g, r. unfold restart_game. rewrite E. unfold Ok. auto.
Qed.

Lemma handle_scores_ordered (w : World) (q : request) :
  scores_ordered w -> scores_ordered (snd (handle w q)).
Proof.
  unfold scores_ordered. destruct w as [[g sc hs] r]. intros [H0 H1].
  cbn [GAME_STATE score high_score] in H0, H1.
  destruct q as [form direction|]; cbn [handle].
  - unfold move_tiles.
    destruct (if falsy direction then form else direction) as [d|];
      [|destruct (falsy None); simpl; auto].
    destruct (in_wasd (Some d));
      [|destruct (falsy (Some d)); simpl; auto].
    unfold update_game_data. cbn [GAME_STATE grid score high_score random].
    destruct (move g d) as [e|[[g' s] moved]];
      [simpl; auto|].
    destruct moved.
    + destruct (add_tile g' r) as [[e|spawned] r']; [simpl; auto|].
      destruct (Z.gtb_spec (sc + s) hs); destruct (falsy (Some d)); simpl;
        lia.
    + destruct (falsy (Some d)); simpl; auto.
  - unfold restart_game. cbn [GAME_STATE grid score high_score random].
    destruct (new_game r) as [[e|g'] r']; simpl; auto with zarith.
Qed.

Lemma serve_scores_ordered (requests : list request) (w : World) :
  scores_ordered w -> scores_ordered (serve w requests).
Proof.
  revert w. induction requests as [|q qs IH]; intros w H; [exact H|].
  unfold serve. cbn [fold_left]. apply IH. now apply handle_scores_ordered.
Qed.

(** C10: from the start of the program (a new grid, score 0, high score 0)
    and after every list of move and restart requests, the score is at most
    the high score. *)
Theorem score_never_exceeds_high_score (r : RNG) :
  exists w0,
    initial_world r = Ok w0
    /\ score (GAME_STATE w0) = 0 /\ high_score (GAME_STATE w0) = 0
    /\ forall requests,
         score (GAME_STATE (serve w0 requests))
         <= high_score (GAME_STATE (serve w0 requests)).
Proof.
  destruct (new_game_grid r) as (g & r' & E & _).
  unfold initial_world. rewrite E. unfold Ok at 1. eexists.
  split; [reflexivity|]. split; [reflexivity|]. split; [reflexivity|].
  intros requests. apply serve_scores_ordered.
  unfold scores_ordered; simpl; lia.
Qed.

(** * Game over and the moves that change nothing *)

Lemma row_blocked_stuck (a b c d : Z) :
  row_blocked [a; b; c; d] = true <-> row_stuck a b c d.
Proof.
  unfold row_blocked, adjacent_pairs, row_stuck.
  cbn [removelast tl combine forallb fst snd].
  rewrite !andb_true_iff, !negb_true_iff, !orb_false_iff, !Z.eqb_neq. tauto.
Qed.

Ltac inst H i j :=
  try (let X := fresh "X" in
       pose proof (H i j ltac:(apply Nat.ltb_lt; reflexivity)
                         ltac:(apply Nat.ltb_lt; reflexivity)) as X;
       cbn [cell nth] in X).

Ltac inst_row H i :=
  inst H i 0%nat; inst H i 1%nat; inst H i 2%nat; inst H i 3%nat.

Ltac inst_all H :=
  inst_row H 0%nat; inst_row H 1%nat; inst_row H 2%nat; inst_row H 3%nat.



Ltac pick H :=
  destruct H as [H|H]; decompose [and] H; clear H; try contradiction.

Section ExplicitGrid.

Variables a0 a1 a2 a3 b0 b1 b2 b3 c0 c1 c2 c3 d0 d1 d2 d3 : Z.

Local Abbreviation G :=
  [[a0; a1; a2; a3]; [b0; b1; b2; b3]; [c0; c1; c2; c3]; [d0; d1; d2; d3]].

Local Abbreviation stuck :=
  (lines_stuck a0 a1 a2 a3 b0 b1 b2 b3 c0 c1 c2 c3 d0 d1 d2 d3).

Local Abbreviation empty :=
  (rows_empty a0 a1 a2 a3 b0 b1 b2 b3 c0 c1 c2 c3 d0 d1 d2 d3).

Lemma is_game_over_explicit : is_game_over G = true <-> stuck.
Proof.
  unfold is_game_over, lines_stuck.
  cbn [zip_star map combine fst snd forallb].
  rewrite !andb_true_iff, !row_blocked_stuck. tauto.
Qed.

Lemma terminal_explicit :
  no_empty_cell G /\ no_equal_neighbours G <-> stuck.
Proof.
  unfold no_empty_cell, no_equal_neighbours, lines_stuck, row_stuck.
  split.
  - intros (Hn & Hh & Hv). inst_all Hn. inst_all Hh. inst_all Hv.
    repeat split; assumption.
  - intros H. decompose [and] H. clear H.
    split; [|split]; intros i j Hi Hj; below_four i; below_four j;
      cbn [cell nth]; assumption.
Qed.

Lemma all_empty_explicit : all_empty G <-> empty.
Proof.
  unfold all_empty, rows_empty, row_empty. split.
  - intros H. inst_all H. repeat split; assumption.
  - intros H. decompose [and] H. clear H.
    intros i j Hi Hj; below_four i; below_four j; cbn [cell nth];
      assumption.
Qed.

(** Eight lines that are each empty or stuck are all stuck or all empty. *)
Lemma lines_empty_or_stuck :
  ((row_empty a0 a1 a2 a3 \/ row_stuck a0 a1 a2 a3)
   /\ (row_empty b0 b1 b2 b3 \/ row_stuck b0 b1 b2 b3)
   /\ (row_empty c0 c1 c2 c3 \/ row_stuck c0 c1 c2 c3)
   /\ (row_empty d0 d1 d2 d3 \/ row_stuck d0 d1 d2 d3)
   /\ (row_empty a0 b0 c0 d0 \/ row_stuck a0 b0 c0 d0)
   /\ (row_empty a1 b1 c1 d1 \/ row_stuck a1 b1 c1 d1)
   /\ (row_empty a2 b2 c2 d2 \/ row_stuck a2 b2 c2 d2)
   /\ (row_empty a3 b3 c3 d3 \/ row_stuck a3 b3 c3 d3))
  <-> stuck \/ empty.
Proof.
  unfold lines_stuck, rows_empty. split.
  - intros (R0 & R1 & R2 & R3 & C0 & C1 & C2 & C3).
    unfold row_empty, row_stuck in *.
    pick R0; pick C0; pick C1; pick C2; pick C3; pick R1; pick R2; pick R3;
      first [ left; repeat split; assumption
            | right; repeat split; assumption ].
  - unfold row_empty, row_stuck. intros [H|H]; decompose [and] H; clear H.
    + repeat split; right; repeat split; assumption.
    + repeat split; left; repeat split; assumption.
Qed.

(** No slide of the rows or of the columns rewrites the grid exactly when
    its lines are all stuck or all empty. *)
Lemma slides_fixed_explicit :
  (slid slide_left false G = G /\ slid slide_right false G = G
   /\ slid slide_left true G = G /\ slid slide_right true G = G)
  <-> stuck \/ empty.
Proof.
  rewrite <- lines_empty_or_stuck.
  rewrite <- !row_both_fixed.
  assert (Hs : well_shaped G = true) by reflexivity.
  assert (Hc : forall f, is_slide f ->
               (slid f true G = G <-> map f (zip_star G) = zip_star G)).
  { intros f Hf. unfold slid. split; intros E.
    - rewrite <- E at 2. symmetry. apply zip_star_involutive.
      apply map_shaped; [intro; now apply slide_length|].
      now apply zip_star_shaped.
    - rewrite E. now apply zip_star_involutive. }
  rewrite (Hc slide_left) by (left; reflexivity).
  rewrite (Hc slide_right) by (right; reflexivity).
  unfold slid. cbn [zip_star map combine fst snd].
  split.
  - intros (E1 & E2 & E3 & E4).
    injection E1 as ? ? ? ?. injection E2 as ? ? ? ?.
    injection E3 as ? ? ? ?. injection E4 as ? ? ? ?.
    repeat split; assumption.
  - intros H. decompose [and] H. clear H.
    repeat split; repeat f_equal; assumption.
Qed.

End ExplicitGrid.

Lemma move_direction (g : Grid) (d : string) :
  in_wasd (Some d) = true ->
  exists s,
    move g d
    = Ok (slid (fst (direction_slide d)) (snd (direction_slide d)) g, s,
          grid_updated g
            (slid (fst (direction_slide d)) (snd (direction_slide d)) g)).
Proof.
  unfold in_wasd, move, move_up, move_down, direction_slide. intros H.
  rewrite move_left_map, move_right_map.
  destruct (String.eqb d "a"); [eexists; reflexivity|].
  destruct (String.eqb d "d"); [eexists; reflexivity|].
  rewrite move_left_map, move_right_map.
  destruct (String.eqb d "w"); [eexists; reflexivity|].
  destruct (String.eqb d "s"); [eexists; reflexivity|].
  discriminate H.
Qed.

Lemma direction_slide_is_slide (d : string) :
  is_slide (fst (direction_slide d)).
Proof.
  unfold direction_slide.
  destruct (String.eqb d "a"); [left; reflexivity|].
  destruct (String.eqb d "d"); [right; reflexivity|].
  destruct (String.eqb d "w"); [left|right]; reflexivity.
Qed.

Lemma wasd_cases (d : string) :
  in_wasd (Some d) = true ->
  d = "w"%string \/ d = "a"%string \/ d = "s"%string \/ d = "d"%string.
Proof.
  unfold in_wasd. rewrite !orb_true_iff, !String.eqb_eq. tauto.
Qed.

Lemma no_move_changes_iff (g : Grid) :
  well_shaped g = true ->
  (forall d, in_wasd (Some d) = true ->
             exists g' s, move g d = Ok (g', s, false))
  <-> (slid slide_left false g = g /\ slid slide_right false g = g
       /\ slid slide_left true g = g /\ slid slide_right true g = g).
Proof.
  intros H.
  assert (Hu : forall d,
             in_wasd (Some d) = true ->
             ((exists g' s, move g d = Ok (g', s, false))
              <-> slid (fst (direction_slide d)) (snd (direction_slide d)) g
                  = g)).
  { intros d Hd. destruct (move_direction g d Hd) as (s & E).
    pose proof (direction_slide_is_slide d) as Hf.
    set (f := fst (direction_slide d)) in *.
    set (bc := snd (direction_slide d)) in *.
    assert (Hl : length g = length (slid f bc g)).
    { rewrite !well_shaped_length; [reflexivity | | exact H].
      now apply slid_shaped. }
    rewrite E. split.
    - intros (g' & s' & E'). injection E' as _ _ Hch.
      apply (grid_updated_false_iff g _ Hl) in Hch. symmetry. exact Hch.
    - intros Eq. exists (slid f bc g), s.
      rewrite (proj2 (grid_updated_false_iff g _ Hl)); [reflexivity|].
      symmetry. exact Eq. }
  split.
  - intros Hall. repeat split.
    + apply (proj1 (Hu "a"%string eq_refl)). apply Hall. reflexivity.
    + apply (proj1 (Hu "d"%string eq_refl)). apply Hall. reflexivity.
    + apply (proj1 (Hu "w"%string eq_refl)). apply Hall. reflexivity.
    + apply (proj1 (Hu "s"%string eq_refl)). apply Hall. reflexivity.
  - intros (E1 & E2 & E3 & E4) d Hd. apply (Hu d Hd).
    destruct (wasd_cases d Hd) as [-> | [-> | [-> | ->]]];
      [exact E3 | exact E1 | exact E4 | exact E2].
Qed.

(** C1, as the code has it: on a four by four grid is_game_over is true
    exactly when no cell is empty and no two neighbours in a row or in a
    column are equal; and no move in any of the four directions changes the
    grid exactly when is_game_over is true or every cell of the grid is
    empty. *)
Theorem game_over_iff_no_move (g : Grid) :
  well_shaped g = true ->
  (is_game_over g = true <-> no_empty_cell g /\ no_equal_neighbours g)
  /\ ((forall d, in_wasd (Some d) = true ->
                 exists g' s, move g d = Ok (g', s, false))
      <-> is_game_over g = true \/ all_empty g).
Proof.
  intros H. rewrite (no_move_changes_iff g H). explicit_grid g H.
  rewrite is_game_over_explicit, terminal_explicit, all_empty_explicit,
    slides_fixed_explicit.
  tauto.
Qed.

Lemma game_over_iff_no_move_witness :
  (is_game_over [[2; 4; 2; 4]; [4; 2; 4; 2]; [2; 4; 2; 4]; [4; 2; 4; 2]] = true
   <-> no_empty_cell [[2; 4; 2; 4]; [4; 2; 4; 2]; [2; 4; 2; 4]; [4; 2; 4; 2]]
       /\ no_equal_neighbours
            [[2; 4; 2; 4]; [4; 2; 4; 2]; [2; 4; 2; 4]; [4; 2; 4; 2]])
  /\ ((forall d, in_wasd (Some d) = true ->
                 exists g' s,
                   move [[2; 4; 2; 4]; [4; 2; 4; 2]; [2; 4; 2; 4]; [4; 2; 4; 2]]
                        d = Ok (g', s, false))
      <-> is_game_over [[2; 4; 2; 4]; [4; 2; 4; 2]; [2; 4; 2; 4]; [4; 2; 4; 2]]
          = true
          \/ all_empty [[2; 4; 2; 4]; [4; 2; 4; 2]; [2; 4; 2; 4]; [4; 2; 4; 2]]).
Proof.
  exact (game_over_iff_no_move
           [[2; 4; 2; 4]; [4; 2; 4; 2]; [2; 4; 2; 4]; [4; 2; 4; 2]] eq_refl).
Defined.

(** C1 as stated fails on the grid with every cell empty: no move in any
    direction changes it, and is_game_over is false. *)
Lemma game_over_iff_no_move_counterexample :
  ~ (is_game_over [[0; 0; 0; 0]; [0; 0; 0; 0]; [0; 0; 0; 0]; [0; 0; 0; 0]]
     = true
     <-> forall d, in_wasd (Some d) = true ->
                   exists g' s,
                     move [[0; 0; 0; 0]; [0; 0; 0; 0]; [0; 0; 0; 0]; [0; 0; 0; 0]]
                          d = Ok (g', s, false)).
Proof.
  intros [_ H].
  assert (E : is_game_over
                [[0; 0; 0; 0]; [0; 0; 0; 0]; [0; 0; 0; 0]; [0; 0; 0; 0]]
              = true).
  { apply H. intros d Hd.
    destruct (wasd_cases d Hd) as [-> | [-> | [-> | ->]]];
      eexists; eexists; reflexivity. }
  discriminate E.
Qed.

(** * Further properties of the engine *)

(** ** The score of a move *)

Lemma move_direction_score (g : Grid) (d : string) :
  in_wasd (Some d) = true ->
  move g d
  = Ok (slid (fst (direction_slide d)) (snd (direction_slide d)) g,
        line_sum (map (direction_score d) (direction_lines d g)),
        grid_updated g
          (slid (fst (direction_slide d)) (snd (direction_slide d)) g)).
Proof.
  unfold direction_lines, direction_score.
  unfold in_wasd, move, move_up, move_down, direction_slide.
  intros H. rewrite move_left_map, move_right_map.
  destruct (String.eqb d "a"); [reflexivity|].
  destruct (String.eqb d "d"); [reflexivity|].
  rewrite move_left_map, move_right_map.
  destruct (String.eqb d "w"); [reflexivity|].
  destruct (String.eqb d "s"); [reflexivity|].
  discriminate H.
Qed.

Lemma merge_tiles_snd (line : Line) :
  snd (merge_tiles line) = snd (scan_spec (remove_zeros line)).
Proof.
  rewrite merge_tiles_spec. unfold compress_and_merge_spec.
  destruct (scan_spec (remove_zeros line)); reflexivity.
Qed.

Lemma scan_spec_score_nonneg (l : Line) :
  nonneg l -> 0 <= snd (scan_spec l).
Proof.
  unfold nonneg.
  induction l as [| x | x y rest IH1 IH2] using pairs_ind; intros H;
    try (simpl; lia).
  rewrite scan_spec_cons2.
  inversion H as [|? ? Hx Hrest]; subst.
  inversion Hrest as [|? ? Hy Hrest']; subst.
  destruct ((x =? y) && negb (x =? 0)); cbn [snd].
  - specialize (IH1 Hrest'). lia.
  - apply IH2. exact Hrest.
Qed.

Lemma remove_zeros_nonneg (l : Line) : nonneg l -> nonneg (remove_zeros l).
Proof.
  unfold nonneg. intros H. apply Forall_forall. intros x Hx.
  apply filter_In in Hx. destruct Hx as [Hx _]. revert x Hx.
  apply Forall_forall. exact H.
Qed.

Lemma score_left_nonneg (row : Line) : nonneg row -> 0 <= score_left row.
Proof.
  intros H. unfold score_left. rewrite merge_tiles_snd.
  apply scan_spec_score_nonneg, remove_zeros_nonneg, H.
Qed.

Lemma score_right_nonneg (row : Line) : nonneg row -> 0 <= score_right row.
Proof.
  intros H. apply (score_left_nonneg (rev row)). apply Forall_rev. exact H.
Qed.

Lemma direction_score_nonneg (d : string) (row : Line) :
  nonneg row -> 0 <= direction_score d row.
Proof.
  intros H. unfold direction_score.
  destruct (String.eqb d "a"); [now apply score_left_nonneg|].
  destruct (String.eqb d "d"); [now apply score_right_nonneg|].
  destruct (String.eqb d "w");
    [now apply score_left_nonneg | now apply score_right_nonneg].
Qed.

Lemma direction_lines_shaped (d : string) (g : Grid) :
  well_shaped g = true -> well_shaped (direction_lines d g) = true.
Proof.
  intros H. unfold direction_lines.
  destruct (snd (direction_slide d)); [now apply zip_star_shaped | exact H].
Qed.

Lemma direction_lines_cells (d : string) (g : Grid) (x : Z) :
  well_shaped g = true ->
  In x (cells (direction_lines d g)) <-> In x (cells g).
Proof.
  intros H. unfold direction_lines.
  destruct (snd (direction_slide d)); [now apply cells_zip_star | tauto].
Qed.

Lemma line_sum_nonneg (l : Line) : nonneg l -> 0 <= line_sum l.
Proof.
  unfold nonneg, line_sum. induction 1; simpl; lia.
Qed.

Lemma move_score_nonneg (g g' : Grid) (d : string) (s : Z) (changed : bool) :
  well_shaped g = true -> nonneg (cells g) ->
  in_wasd (Some d) = true -> move g d = Ok (g', s, changed) -> 0 <= s.
Proof.
  intros H Hn Hd E. rewrite (move_direction_score g d Hd) in E.
  injection E as _ <- _. apply line_sum_nonneg. unfold nonneg.
  apply Forall_map. apply Forall_forall. intros row Hrow.
  apply direction_score_nonneg. unfold nonneg. apply Forall_forall.
  intros x Hx.
  assert (Hc : In x (cells (direction_lines d g))).
  { unfold cells. apply in_concat. exists row. auto. }
  apply (direction_lines_cells d g x H) in Hc.
  exact (proj1 (Forall_forall _ _) Hn x Hc).
Qed.

(** ** A move that changes nothing gains nothing *)

Lemma packed_cases (a b c d : Z) :
  packed_unmergeable a b c d ->
  (a = 0 /\ b = 0 /\ c = 0 /\ d = 0)
  \/ (a <> 0 /\ b = 0 /\ c = 0 /\ d = 0)
  \/ (a <> 0 /\ b <> 0 /\ a <> b /\ c = 0 /\ d = 0)
  \/ (a <> 0 /\ b <> 0 /\ c <> 0 /\ a <> b /\ b <> c /\ d = 0)
  \/ (a <> 0 /\ b <> 0 /\ c <> 0 /\ d <> 0 /\ a <> b /\ b <> c /\ c <> d).
Proof.
  unfold packed_unmergeable. intros L.
  destruct (Z.eq_dec a 0), (Z.eq_dec b 0), (Z.eq_dec c 0), (Z.eq_dec d 0);
    tauto.
Qed.

Lemma slide_left_fixed_score (a b c d : Z) :
  slide_left [a; b; c; d] = [a; b; c; d] -> score_left [a; b; c; d] = 0.
Proof.
  intros E. apply slide_left_fixed_packed, packed_cases in E.
  unfold score_left. rewrite merge_tiles_spec.
  unfold compress_and_merge_spec.
  destruct E as [H|[H|[H|[H|H]]]]; decompose [and] H; clear H; subst;
    cbn [negb andb orb filter remove_zeros scan_spec fst snd app
         length repeat Nat.sub GRID_WIDTH nth];
    split_eqb; reflexivity.
Qed.

Lemma slide_right_fixed_left (row : Line) :
  slide_right row = row -> slide_left (rev row) = rev row.
Proof.
  unfold slide_right, slide_left. intros E.
  rewrite <- E at 2. rewrite rev_involutive. reflexivity.
Qed.

Lemma direction_fixed_score (d : string) (row : Line) :
  length row = GRID_WIDTH ->
  fst (direction_slide d) row = row -> direction_score d row = 0.
Proof.
  intros Hl. destruct (row_of_four row Hl) as (a & b & c & e & ->).
  unfold direction_slide, direction_score.
  assert (L : slide_left [a; b; c; e] = [a; b; c; e] ->
              score_left [a; b; c; e] = 0)
    by apply slide_left_fixed_score.
  assert (R : slide_right [a; b; c; e] = [a; b; c; e] ->
              score_right [a; b; c; e] = 0).
  { intros E. apply slide_right_fixed_left in E.
    apply (slide_left_fixed_score e c b a). exact E. }
  destruct (String.eqb d "a"); [exact L|].
  destruct (String.eqb d "d"); [exact R|].
  destruct (String.eqb d "w"); [exact L | exact R].
Qed.

Lemma map_fixed_in {A : Type} (f : A -> A) (l : list A) :
  map f l = l -> forall x, In x l -> f x = x.
Proof.
  induction l as [|y l IH]; intros E x Hx; [contradiction|].
  simpl in E. injection E as E1 E2. destruct Hx as [<- | Hx]; auto.
Qed.

Lemma slid_columns_fixed (f : Line -> Line) (g : Grid) :
  is_slide f -> well_shaped g = true ->
  (slid f true g = g <-> map f (zip_star g) = zip_star g).
Proof.
  intros Hf H. unfold slid. split; intros E.
  - rewrite <- E at 2. symmetry. apply zip_star_involutive.
    apply map_shaped; [intro; now apply slide_length|].
    now apply zip_star_shaped.
  - rewrite E. now apply zip_star_involutive.
Qed.

Lemma slid_fixed_lines (d : string) (g : Grid) :
  well_shaped g = true ->
  slid (fst (direction_slide d)) (snd (direction_slide d)) g = g ->
  map (fst (direction_slide d)) (direction_lines d g) = direction_lines d g.
Proof.
  intros H E. unfold direction_lines.
  destruct (snd (direction_slide d)).
  - apply slid_columns_fixed; [apply direction_slide_is_slide | exact H | exact E].
  - exact E.
Qed.

Lemma shaped_row_length (g : Grid) (row : Line) :
  well_shaped g = true -> In row g -> length row = GRID_WIDTH.
Proof.
  unfold well_shaped. intros H Hin. apply andb_true_iff in H.
  destruct H as [_ H].
  apply (proj1 (forallb_forall _ _) H) in Hin. apply Nat.eqb_eq. exact Hin.
Qed.

Lemma line_sum_zero (sc : Line -> Z) (lines : Grid) :
  (forall row, In row lines -> sc row = 0) -> line_sum (map sc lines) = 0.
Proof.
  induction lines as [|row lines IH]; intros H; [reflexivity|].
  cbn [map]. unfold line_sum in *. cbn [fold_right].
  rewrite (H row (or_introl eq_refl)), IH; [reflexivity|].
  intros r Hr. apply H. right. exact Hr.
Qed.

Lemma move_unchanged_inv (g g' : Grid) (d : string) (s : Z) :
  well_shaped g = true -> in_wasd (Some d) = true ->
  move g d = Ok (g', s, false) -> g' = g /\ s = 0.
Proof.
  intros H Hd E. rewrite (move_direction_score g d Hd) in E.
  injection E as <- <- Hch.
  pose proof (direction_slide_is_slide d) as Hf.
  assert (Hs : well_shaped
                 (slid (fst (direction_slide d)) (snd (direction_slide d)) g)
               = true) by now apply slid_shaped.
  apply grid_updated_false_iff in Hch;
    [|rewrite !well_shaped_length by assumption; reflexivity].
  split; [symmetry; exact Hch|].
  apply line_sum_zero. intros row Hrow.
  apply direction_fixed_score.
  - apply (shaped_row_length (direction_lines d g));
      [now apply direction_lines_shaped | exact Hrow].
  - apply (map_fixed_in _ (direction_lines d g)); [|exact Hrow].
    apply slid_fixed_lines; [exact H | symmetry; exact Hch].
Qed.

(** ** Tiles, their number and their sum *)

Lemma is_tile_nonneg (v : Z) : is_tile v -> 0 <= v.
Proof.
  intros [-> | [k ->]]; [lia|]. apply Z.pow_nonneg. lia.
Qed.

Lemma tiles_nonneg (l : Line) : Forall is_tile l -> nonneg l.
Proof.
  unfold nonneg. intros H. apply Forall_forall. intros x Hx.
  apply is_tile_nonneg. exact (proj1 (Forall_forall _ _) H x Hx).
Qed.

Lemma count_pos_iff_sum_pos (l : Line) :
  nonneg l -> ((1 <= length (remove_zeros l))%nat <-> 0 < line_sum l).
Proof.
  unfold nonneg, line_sum, remove_zeros.
  induction 1 as [|x l Hx Hl IH]; simpl; [lia|].
  pose proof (line_sum_nonneg l Hl) as Hs. unfold line_sum in Hs.
  destruct (Z.eqb_spec x 0); simpl; lia.
Qed.

Lemma remove_zeros_full (l : Line) : ~ In 0 l -> remove_zeros l = l.
Proof.
  induction l as [|x l IH]; intros H; [reflexivity|]. simpl.
  destruct (Z.eqb_spec x 0) as [->|Hx]; [exfalso; apply H; left; reflexivity|].
  simpl. f_equal. apply IH. intros Hin. apply H. right. exact Hin.
Qed.

(** A four by four grid with fewer than sixteen tiles has an empty cell. *)
Lemma few_tiles_has_empty (g : Grid) :
  well_shaped g = true ->
  (count_tiles g < GRID_WIDTH * GRID_WIDTH)%nat -> In 0 (cells g).
Proof.
  intros H Hc. destruct (in_dec Z.eq_dec 0 (cells g)) as [Hz|Hz]; [exact Hz|].
  exfalso. unfold count_tiles in Hc. rewrite remove_zeros_full in Hc by exact Hz.
  rewrite cells_length in Hc by exact H. lia.
Qed.

(** ** Game over *)

Lemma game_over_full (g : Grid) :
  well_shaped g = true -> is_game_over g = true -> ~ In 0 (cells g).
Proof.
  intros H Hg Hz. destruct (in_cells_cell g 0 H Hz) as (i & j & Hi & Hj & Hc).
  revert Hg i j Hi Hj Hc. explicit_grid g H. intros Hg.
  apply is_game_over_explicit, terminal_explicit in Hg.
  destruct Hg as [Hn _]. intros i j Hi Hj Hc. exact (Hn i j Hi Hj Hc).
Qed.

Lemma game_over_no_move (g : Grid) (d : string) :
  well_shaped g = true -> is_game_over g = true ->
  in_wasd (Some d) = true ->
  exists s, move g d = Ok (g, s, false).
Proof.
  intros H Hg Hd.
  assert (Hall : forall d', in_wasd (Some d') = true ->
                            exists g' s, move g d' = Ok (g', s, false)).
  { apply (no_move_changes_iff g H). revert Hg. explicit_grid g H. intros Hg.
    apply slides_fixed_explicit. left. apply is_game_over_explicit. exact Hg. }
  destruct (Hall d Hd) as (g' & s & E).
  destruct (move_unchanged_inv g g' d s H Hd E) as [-> _].
  exists s. exact E.
Qed.

(** ** One request on a session as play produces it *)

Lemma session_ok_sum_pos (g : Grid) :
  Forall is_tile (cells g) -> (2 <= count_tiles g)%nat ->
  0 < line_sum (cells g).
Proof.
  intros Ht Hc. apply count_pos_iff_sum_pos; [now apply tiles_nonneg|].
  unfold count_tiles in Hc. lia.
Qed.

Lemma update_game_data_ok (d : string) (w : World) :
  session_ok w -> in_wasd (Some d) = true ->
  exists w',
    update_game_data d w = (None, w') /\ session_ok w'
    /\ score (GAME_STATE w) <= score (GAME_STATE w').
Proof.
  intros (H & Ht & Hc & Hs0 & Hs1) Hd. destruct w as [[g sc hs] r].
  cbn [GAME_STATE grid score high_score random] in *.
  unfold update_game_data. cbn [GAME_STATE grid score high_score random].
  pose proof (move_direction_score g d Hd) as E.
  pose proof (direction_slide_is_slide d) as Hf.
  set (f := fst (direction_slide d)) in *.
  set (bc := snd (direction_slide d)) in *.
  set (s := line_sum (map (direction_score d) (direction_lines d g))) in *.
  assert (Hs : 0 <= s).
  { apply (move_score_nonneg g _ d s _ H (tiles_nonneg _ Ht) Hd E). }
  assert (Hsh : well_shaped (slid f bc g) = true) by now apply slid_shaped.
  assert (Hti : Forall is_tile (cells (slid f bc g))) by now apply slid_tiles.
  rewrite E. unfold Ok. cbn beta iota.
  destruct (grid_updated g (slid f bc g)) eqn:Hch.
  - assert (Hz : In 0 (cells (slid f bc g))).
    { apply slid_changed_has_empty; try assumption.
      apply grid_updated_true_iff in Hch;
        [congruence | rewrite !well_shaped_length by assumption; reflexivity]. }
    destruct (add_tile_spawns (slid f bc g) r Hsh Hz)
      as (i & j & v & Hi & Hj & Hcell & Hv & E').
    rewrite E'. unfold Ok. cbn beta iota. eexists. split; [reflexivity|].
    split; [|cbn [GAME_STATE score]; lia].
    unfold session_ok. cbn [GAME_STATE grid score high_score random].
    split; [now apply place_shaped|]. split.
    { apply place_tiles; try assumption.
      destruct Hv as [-> | ->]; [apply is_tile_2 | apply is_tile_4]. }
    split.
    { rewrite place_count; try assumption; [|destruct Hv; lia].
      assert (1 <= count_tiles (slid f bc g))%nat; [|lia].
      unfold count_tiles. apply count_pos_iff_sum_pos;
        [now apply tiles_nonneg|].
      rewrite slid_sum by assumption. now apply session_ok_sum_pos. }
    destruct (Z.gtb_spec (sc + s) hs); lia.
  - apply grid_updated_false_iff in Hch;
      [|rewrite !well_shaped_length by assumption; reflexivity].
    rewrite <- Hch. eexists. split; [reflexivity|].
    unfold session_ok. cbn [GAME_STATE grid score high_score random].
    repeat split; try assumption; lia.
Qed.

Lemma move_tiles_ok (form_direction direction : option string) (w : World) :
  session_ok w ->
  exists o w',
    move_tiles form_direction direction w = (o, w')
    /\ (o = Returned \/ o = Redirected "/")
    /\ session_ok w'
    /\ score (GAME_STATE w) <= score (GAME_STATE w').
Proof.
  intros Hok. unfold move_tiles.
  destruct (if falsy direction then form_direction else direction) as [d|].
  - destruct (in_wasd (Some d)) eqn:Hd.
    + destruct (update_game_data_ok d w Hok Hd) as (w' & E & Hok' & Hsc).
      rewrite E.
      destruct (falsy (Some d)); eexists; eexists;
        (split; [reflexivity|]); auto.
    + destruct (falsy (Some d)); eexists; eexists;
        (split; [reflexivity|]); (split; [auto|]); (split; [exact Hok|lia]).
  - cbn [falsy]. eexists; eexists. split; [reflexivity|].
    split; [auto|]. split; [exact Hok|lia].
Qed.

Lemma new_game_session (r : RNG) (hs : Z) :
  0 <= hs ->
  exists g r',
    new_game r = (Ok g, r')
    /\ session_ok {| GAME_STATE := {| grid := g; score := 0;
                                     high_score := hs |};
                     random := r' |}
    /\ is_game_over g = false.
Proof.
  intros Hhs. destruct (new_game_grid r) as (g & r' & E & Hs & Hc & Hv).
  exists g, r'. split; [exact E|]. split.
  - unfold session_ok. cbn [GAME_STATE grid score high_score].
    split; [exact Hs|]. split; [|split; lia].
    apply Forall_forall. intros x Hx.
    apply (proj1 (Forall_forall _ _) Hv) in Hx.
    destruct Hx as [-> | [-> | ->]];
      [left; reflexivity | apply is_tile_2 | apply is_tile_4].
  - destruct (is_game_over g) eqn:Hg; [|reflexivity]. exfalso.
    apply (game_over_full g Hs Hg). apply few_tiles_has_empty; [exact Hs|].
    rewrite Hc. unfold GRID_WIDTH. simpl. lia.
Qed.

Lemma restart_game_ok (w : World) :
  0 <= high_score (GAME_STATE w) ->
  exists w',
    restart_game w = (Returned, w') /\ session_ok w'
    /\ is_game_over (grid (GAME_STATE w')) = false
    /\ score (GAME_STATE w') = 0
    /\ high_score (GAME_STATE w') = high_score (GAME_STATE w).
Proof.
  intros Hhs.
  destruct (new_game_session (random w) (high_score (GAME_STATE w)) Hhs)
    as (g & r' & E & Hok & Hg).
  unfold restart_game. rewrite E. unfold Ok. eexists.
  split; [reflexivity|]. auto.
Qed.

Lemma session_ok_high_nonneg (w : World) :
  session_ok w -> 0 <= high_score (GAME_STATE w).
Proof. intros (_ & _ & _ & H0 & H1). lia. Qed.

Lemma handle_ok (w : World) (q : request) :
  session_ok w ->
  session_ok (snd (handle w q)) /\ forall e, fst (handle w q) <> Raised e.
Proof.
  intros Hok. destruct q as [form direction|]; cbn [handle].
  - destruct (move_tiles_ok form direction w Hok)
      as (o & w' & E & Ho & Hok' & _).
    rewrite E. split; [exact Hok'|]. intros e.
    destruct Ho as [-> | ->]; discriminate.
  - destruct (restart_game_ok w (session_ok_high_nonneg w Hok))
      as (w' & E & Hok' & _).
    rewrite E. split; [exact Hok'|]. discriminate.
Qed.

Lemma serve_ok (requests : list request) (w : World) :
  session_ok w -> session_ok (serve w requests).
Proof.
  revert w. induction requests as [|q qs IH]; intros w H; [exact H|].
  unfold serve. cbn [fold_left]. apply IH. now apply handle_ok.
Qed.

Lemma initial_world_ok (r : RNG) :
  exists w0, initial_world r = Ok w0 /\ session_ok w0.
Proof.
  destruct (new_game_session r 0 (Z.le_refl 0)) as (g & r' & E & Hok & _).
  unfold initial_world. rewrite E. unfold Ok at 1. eexists.
  split; [reflexivity | exact Hok].
Qed.

Lemma place_cell (g : Grid) (i j i' j' : nat) (v : Z) :
  well_shaped g = true ->
  (i < GRID_WIDTH)%nat -> (j < GRID_WIDTH)%nat ->
  (i' < GRID_WIDTH)%nat -> (j' < GRID_WIDTH)%nat ->
  cell (place g i j v) i' j'
  = if (i =? i')%nat && (j =? j')%nat then v else cell g i' j'.
Proof.
  intros H Hi Hj Hi' Hj'. explicit_grid g H.
  below_four i; below_four j; below_four i'; below_four j'; reflexivity.
Qed.

(** * Further results *)

(** X2: on a four by four grid, a move in one of the four directions that
    reports no change returns the grid it was given and a score of 0. *)
Theorem unchanged_move_gains_nothing
  (g g' : Grid) (d : string) (s : Z) :
  well_shaped g = true -> in_wasd (Some d) = true ->
  move g d = Ok (g', s, false) -> g' = g /\ s = 0.
Proof. apply move_unchanged_inv. Qed.

Lemma unchanged_move_gains_nothing_witness :
  [[2; 4; 0; 0]; [8; 0; 0; 0]; [0; 0; 0; 0]; [0; 0; 0; 0]]
  = [[2; 4; 0; 0]; [8; 0; 0; 0]; [0; 0; 0; 0]; [0; 0; 0; 0]]
  /\ 0 = 0.
Proof.
  exact (unchanged_move_gains_nothing
           [[2; 4; 0; 0]; [8; 0; 0; 0]; [0; 0; 0; 0]; [0; 0; 0; 0]]
           [[2; 4; 0; 0]; [8; 0; 0; 0]; [0; 0; 0; 0]; [0; 0; 0; 0]]
           "a" 0 eq_refl eq_refl eq_refl).
Defined.

(** X3: from the start of the program and after every list of move and
    restart requests, the grid is four by four, every cell is empty or a
    power of two that is at least 2, at least two tiles are on the grid, the
    score is between 0 and the high score, and no IndexError or
    UnboundLocalError escapes the next request. *)
Theorem reachable_sessions_ok (r : RNG) :
  exists w0,
    initial_world r = Ok w0
    /\ forall requests,
         session_ok (serve w0 requests)
         /\ forall q e, fst (handle (serve w0 requests) q) <> Raised e.
Proof.
  destruct (initial_world_ok r) as (w0 & E & Hok).
  exists w0. split; [exact E|]. intros requests.
  pose proof (serve_ok requests w0 Hok) as Hs.
  split; [exact Hs|]. intros q. apply handle_ok. exact Hs.
Qed.

(** X4: on a four by four grid with at least one tile, is_game_over is
    true exactly when no move in any of the four directions changes the
    grid. *)
Theorem game_over_iff_stuck_with_tile (g : Grid) :
  well_shaped g = true -> (1 <= count_tiles g)%nat ->
  (is_game_over g = true
   <-> forall d, in_wasd (Some d) = true ->
                 exists g' s, move g d = Ok (g', s, false)).
Proof.
  intros H Hc. rewrite (no_move_changes_iff g H).
  assert (Hne : ~ all_empty g).
  { intros Ha. unfold count_tiles in Hc.
    assert (Hz : remove_zeros (cells g) = []).
    { apply filter_none. intros x Hx.
      destruct (in_cells_cell g x H Hx) as (i & j & Hi & Hj & <-).
      rewrite (Ha i j Hi Hj). reflexivity. }
    rewrite Hz in Hc. simpl in Hc. lia. }
  revert Hne. explicit_grid g H.
  rewrite is_game_over_explicit, all_empty_explicit, slides_fixed_explicit.
  tauto.
Qed.

Lemma game_over_iff_stuck_with_tile_witness :
  is_game_over [[2; 2; 0; 0]; [0; 0; 0; 0]; [0; 0; 0; 0]; [0; 0; 0; 0]] = true
  <-> forall d, in_wasd (Some d) = true ->
                exists g' s,
                  move [[2; 2; 0; 0]; [0; 0; 0; 0]; [0; 0; 0; 0]; [0; 0; 0; 0]]
                       d = Ok (g', s, false).
Proof.
  apply (game_over_iff_stuck_with_tile
           [[2; 2; 0; 0]; [0; 0; 0; 0]; [0; 0; 0; 0]; [0; 0; 0; 0]] eq_refl).
  unfold count_tiles. simpl. lia.
Defined.

(** X5: in every session that play reaches, the game is over exactly when
    no move in any of the four directions changes the grid. *)
Theorem reachable_game_over_iff_stuck (r : RNG) :
  exists w0,
    initial_world r = Ok w0
    /\ forall requests,
         is_game_over (grid (GAME_STATE (serve w0 requests))) = true
         <-> forall d, in_wasd (Some d) = true ->
                       exists g' s,
                         move (grid (GAME_STATE (serve w0 requests))) d
                         = Ok (g', s, false).
Proof.
  destruct (initial_world_ok r) as (w0 & E & Hok).
  exists w0. split; [exact E|]. intros requests.
  destruct (serve_ok requests w0 Hok) as (H & _ & Hc & _).
  set (g := grid (GAME_STATE (serve w0 requests))) in *.
  rewrite (no_move_changes_iff g H).
  assert (Hne : ~ all_empty g).
  { intros Ha. unfold count_tiles in Hc.
    assert (Hz : remove_zeros (cells g) = []).
    { apply filter_none. intros x Hx.
      destruct (in_cells_cell g x H Hx) as (i & j & Hi & Hj & <-).
      rewrite (Ha i j Hi Hj). reflexivity. }
    rewrite Hz in Hc. simpl in Hc. lia. }
  clearbody g. revert Hne. explicit_grid g H.
  rewrite is_game_over_explicit, all_empty_explicit, slides_fixed_explicit.
  tauto.
Qed.

(** X6: once the game is over on a four by four grid, move_tiles with any
    direction leaves the session and the generator as they were, and no
    IndexError or UnboundLocalError escapes it. *)
Theorem game_over_absorbs_moves
  (form_direction direction : option string) (w : World) :
  well_shaped (grid (GAME_STATE w)) = true ->
  is_game_over (grid (GAME_STATE w)) = true ->
  snd (move_tiles form_direction direction w) = w
  /\ forall e, fst (move_tiles form_direction direction w) <> Raised e.
Proof.
  intros H Hg. destruct w as [[g sc hs] r].
  cbn [GAME_STATE grid] in H, Hg. unfold move_tiles.
  destruct (if falsy direction then form_direction else direction) as [d|];
    [|cbn [falsy]; split; [reflexivity | discriminate]].
  destruct (in_wasd (Some d)) eqn:Hd;
    [|destruct (falsy (Some d)); split; try reflexivity; discriminate].
  unfold update_game_data. cbn [GAME_STATE grid score high_score random].
  destruct (game_over_no_move g d H Hg Hd) as (s & E). rewrite E.
  unfold Ok. cbn beta iota.
  destruct (falsy (Some d)); split; try reflexivity; discriminate.
Qed.

Lemma game_over_absorbs_moves_witness :
  snd (move_tiles None (Some "w"%string) stuck_world) = stuck_world
  /\ forall e, fst (move_tiles None (Some "w"%string) stuck_world) <> Raised e.
Proof.
  exact (game_over_absorbs_moves None (Some "w"%string) stuck_world
           eq_refl eq_refl).
Defined.

(** X7: the game is never over on the grid of a new game: not after
    restart_game, whatever the session was, and not at the start of the
    program. *)
Theorem new_game_is_not_over (w : World) (r : RNG) :
  is_game_over (grid (GAME_STATE (snd (restart_game w)))) = false
  /\ exists w0,
       initial_world r = Ok w0
       /\ is_game_over (grid (GAME_STATE w0)) = false.
Proof.
  split.
  - destruct (new_game_session (random w) 0 (Z.le_refl 0))
      as (g & r' & E & _ & Hg).
    unfold restart_game. rewrite E. unfold Ok. exact Hg.
  - destruct (new_game_session r 0 (Z.le_refl 0)) as (g & r' & E & _ & Hg).
    unfold initial_world. rewrite E. unfold Ok at 1. eexists.
    split; [reflexivity | exact Hg].
Qed.

Lemma handle_high_score (w : World) (q : request) :
  high_score (GAME_STATE w) <= high_score (GAME_STATE (snd (handle w q))).
Proof.
  destruct w as [[g sc hs] r]. destruct q as [form direction|]; cbn [handle].
  - unfold move_tiles.
    destruct (if falsy direction then form else direction) as [d|];
      [|cbn [falsy snd GAME_STATE high_score]; lia].
    destruct (in_wasd (Some d));
      [|destruct (falsy (Some d)); cbn [snd GAME_STATE high_score]; lia].
    unfold update_game_data. cbn [GAME_STATE grid score high_score random].
    destruct (move g d) as [e|[[g' s] moved]];
      [cbn [snd GAME_STATE high_score]; lia|].
    destruct moved.
    + destruct (add_tile g' r) as [[e|spawned] r'];
        [cbn [snd GAME_STATE high_score]; lia|].
      destruct (Z.gtb_spec (sc + s) hs); destruct (falsy (Some d));
        cbn [snd GAME_STATE high_score]; lia.
    + destruct (falsy (Some d)); cbn [snd GAME_STATE high_score]; lia.
  - unfold restart_game. cbn [GAME_STATE grid score high_score random].
    destruct (new_game r) as [[e|g'] r']; cbn [snd GAME_STATE high_score];
      lia.
Qed.

(** X8: whatever the session, no list of move and restart requests lowers
    the high score. *)
Theorem high_score_never_decreases (requests : list request) (w : World) :
  high_score (GAME_STATE w) <= high_score (GAME_STATE (serve w requests)).
Proof.
  revert w. induction requests as [|q qs IH]; intros w; [simpl; lia|].
  unfold serve. cbn [fold_left].
  pose proof (handle_high_score w q) as H1.
  pose proof (IH (snd (handle w q))) as H2. unfold serve in H2. lia.
Qed.

(** X9: on a session as play produces it, move_tiles never lowers the
    score, whatever the direction; it ends by returning or by the redirect
    and leaves such a session. *)
Theorem move_tiles_score_monotone
  (form_direction direction : option string) (w : World) :
  session_ok w ->
  score (GAME_STATE w)
  <= score (GAME_STATE (snd (move_tiles form_direction direction w)))
  /\ session_ok (snd (move_tiles form_direction direction w))
  /\ (fst (move_tiles form_direction direction w) = Returned
      \/ fst (move_tiles form_direction direction w) = Redirected "/").
Proof.
  intros Hok.
  destruct (move_tiles_ok form_direction direction w Hok)
    as (o & w' & E & Ho & Hok' & Hsc).
  rewrite E. auto.
Qed.

Lemma sample_world_ok : session_ok sample_world.
Proof.
  unfold session_ok, sample_world. cbn [GAME_STATE grid score high_score].
  split; [reflexivity|]. split; [|split; [unfold count_tiles; simpl; lia|lia]].
  simpl.
  repeat (constructor;
          [first [ left; reflexivity
                 | right; exists 0%nat; reflexivity
                 | right; exists 1%nat; reflexivity ]|]).
  constructor.
Defined.

Lemma move_tiles_score_monotone_witness :
  score (GAME_STATE sample_world)
  <= score (GAME_STATE (snd (move_tiles None (Some "a"%string) sample_world)))
  /\ session_ok (snd (move_tiles None (Some "a"%string) sample_world))
  /\ (fst (move_tiles None (Some "a"%string) sample_world) = Returned
      \/ fst (move_tiles None (Some "a"%string) sample_world)
         = Redirected "/").
Proof.
  exact (move_tiles_score_monotone None (Some "a"%string) sample_world
           sample_world_ok).
Defined.

(** X10: on a four by four grid, when add_tile returns it has taken two
    draws and changed one cell: an empty cell now holds 2 or 4, every other
    cell is as it was, and the grid has one tile more. *)
Theorem add_tile_changes_one_cell (g g' : Grid) (r r' : RNG) :
  well_shaped g = true -> add_tile g r = (Ok g', r') ->
  r' = advanced 2 r
  /\ well_shaped g' = true
  /\ count_tiles g' = S (count_tiles g)
  /\ exists i j,
       (i < GRID_WIDTH)%nat /\ (j < GRID_WIDTH)%nat /\ cell g i j = 0
       /\ (cell g' i j = 2 \/ cell g' i j = 4)
       /\ forall i' j',
            (i' < GRID_WIDTH)%nat -> (j' < GRID_WIDTH)%nat ->
            (i', j') <> (i, j) -> cell g' i' j' = cell g i' j'.
Proof.
  intros H E.
  destruct (add_tile_ok_inv g g' r r' H E)
    as (i & j & v & Hi & Hj & Hc & Hv & -> & ->).
  split; [reflexivity|]. split; [now apply place_shaped|]. split.
  { apply place_count; try assumption. destruct Hv; lia. }
  exists i, j. repeat split; try assumption.
  - rewrite place_cell by assumption. rewrite !Nat.eqb_refl. exact Hv.
  - intros i' j' Hi' Hj' Hne. rewrite place_cell by assumption.
    destruct (Nat.eqb_spec i i') as [->|]; [|reflexivity].
    destruct (Nat.eqb_spec j j') as [->|]; [|reflexivity].
    exfalso. apply Hne. reflexivity.
Qed.

Lemma add_tile_changes_one_cell_witness :
  {| tape := sample_tape; pos := 2 |}
  = advanced 2 {| tape := sample_tape; pos := 0 |}
  /\ count_tiles [[2; 0; 0; 0]; [2; 0; 0; 0]; [0; 0; 0; 8]; [0; 0; 0; 0]]
     = S (count_tiles [[2; 0; 0; 0]; [0; 0; 0; 0]; [0; 0; 0; 8]; [0; 0; 0; 0]]).
Proof.
  pose proof (add_tile_changes_one_cell
                [[2; 0; 0; 0]; [0; 0; 0; 0]; [0; 0; 0; 8]; [0; 0; 0; 0]]
                [[2; 0; 0; 0]; [2; 0; 0; 0]; [0; 0; 0; 8]; [0; 0; 0; 0]]
                {| tape := sample_tape; pos := 0 |}
                {| tape := sample_tape; pos := 2 |}
                eq_refl eq_refl) as (H1 & _ & H2 & _).
  split; [exact H1 | exact H2].
Defined.

(** * The other handlers and the drivers *)

(** ** joystick_move_tiles *)

Lemma joystick_move_tiles_world
  (form_direction query_direction : option string) (w : World) :
  snd (joystick_move_tiles form_direction query_direction w)
  = match py_or form_direction query_direction with
    | None => w
    | Some _ =>
        snd (move_tiles form_direction
               (py_or form_direction query_direction) w)
    end.
Proof.
  unfold joystick_move_tiles.
  destruct (py_or form_direction query_direction) as [d|]; [|reflexivity].
  destruct (move_tiles form_direction (Some d) w) as [[| |] w'];
    reflexivity.
Qed.

(** X11: when the direction that joystick_move_tiles reads (the form field,
    or else the query parameter) is missing or is none of the four letters,
    the session and the generator are left as they were; the handler
    answers with the game data of that session, except for the empty
    string, where it leaves through the redirect to the page. *)
Theorem joystick_move_tiles_invalid
  (form_direction query_direction : option string) (w : World) :
  in_wasd (py_or form_direction query_direction) = false ->
  joystick_move_tiles form_direction query_direction w
  = (match py_or form_direction query_direction with
     | Some d => if String.eqb d "" then inl (Redirected "/")
                 else inr (snapshot w)
     | None => inr (snapshot w)
     end,
     w).
Proof.
  unfold joystick_move_tiles, py_or. intros H.
  destruct form_direction as [f|], query_direction as [q|];
    cbn [falsy] in *.
  - destruct (String.eqb_spec f "") as [->|Hf].
    + unfold move_tiles. cbn [falsy]. destruct (String.eqb_spec q "") as [->|Hq].
      * reflexivity.
      * cbn [falsy]. rewrite H.
        destruct (String.eqb_spec q ""); [contradiction|reflexivity].
    + unfold move_tiles. cbn [falsy].
      destruct (String.eqb_spec f ""); [contradiction|]. rewrite H.
      cbn [falsy]. destruct (String.eqb_spec f ""); [contradiction|].
      reflexivity.
  - destruct (String.eqb_spec f "") as [->|Hf]; [reflexivity|].
    unfold move_tiles. cbn [falsy].
    destruct (String.eqb_spec f ""); [contradiction|]. rewrite H.
    cbn [falsy]. destruct (String.eqb_spec f ""); [contradiction|].
    reflexivity.
  - unfold move_tiles. cbn [falsy]. destruct (String.eqb_spec q "") as [->|Hq].
    + reflexivity.
    + rewrite H. cbn [falsy].
      destruct (String.eqb_spec q ""); [contradiction|reflexivity].
  - reflexivity.
Qed.

Lemma joystick_move_tiles_invalid_witness :
  joystick_move_tiles None (Some "up"%string) sample_world
  = (inr (snapshot sample_world), sample_world)
  /\ joystick_move_tiles (Some ""%string) (Some ""%string) sample_world
     = (inl (Redirected "/"), sample_world).
Proof.
  split.
  - exact (joystick_move_tiles_invalid None (Some "up"%string) sample_world
             eq_refl).
  - exact (joystick_move_tiles_invalid (Some ""%string) (Some ""%string)
             sample_world eq_refl).
Defined.

(** ** io_setup *)

(** X12: io_setup returns only when the address 0x4B answers, and the
    device it returns is then the ADS7830, whatever 0x48 answered; a
    converter that answers at 0x48 and not at 0x4B makes it exit with -1. *)
Theorem io_setup_needs_ads7830 (detectI2C : adc_device -> Z -> bool) :
  (forall adc,
      io_setup detectI2C = Ready adc ->
      adc = ADS7830 /\ exists probe, detectI2C probe 75 = true)
  /\ (detectI2C ADCDevice 72 = true -> detectI2C PCF8591 75 = false ->
      io_setup detectI2C = Exit (-1)).
Proof.
  unfold io_setup. split.
  - intros adc.
    destruct (detectI2C ADCDevice 72);
      [destruct (detectI2C PCF8591 75) eqn:E
      |destruct (detectI2C ADCDevice 75) eqn:E];
      intros H; try discriminate H; injection H as <-;
      (split; [reflexivity | eexists; exact E]).
  - intros -> ->. reflexivity.
Qed.

Lemma io_setup_needs_ads7830_witness :
  io_setup (fun _ addr => addr =? 72) = Exit (-1).
Proof.
  exact (proj2 (io_setup_needs_ads7830 (fun _ addr => addr =? 72))
           eq_refl eq_refl).
Defined.

(** ** handle_joystick_input *)

Lemma axis_direction_valid (rd : reading) (d : string) :
  axis_direction rd = Some d -> in_wasd (Some d) = true.
Proof.
  unfold axis_direction.
  repeat match goal with
         | |- context [if ?c then _ else _] => destruct c
         end;
    intros H; try discriminate H; injection H as <-; reflexivity.
Qed.

Lemma joystick_poll_button_up
  (rd : reading) (g : Grid) (directionPrev : option string) :
  z_pin rd = true ->
  joystick_poll rd g directionPrev
  = (match axis_direction rd with
     | Some d => if direction_differs (Some d) directionPrev
                 then [GET_joystick_move d] else []
     | None => []
     end,
     axis_direction rd).
Proof.
  intros Hz. unfold joystick_poll. rewrite Hz. cbn [negb].
  pose proof (axis_direction_valid rd) as Hv. unfold axis_direction in *.
  repeat match goal with
         | |- context [if ?c <=? ?t then _ else _] => destruct (c <=? t)
         | |- context [if ?c >=? ?t then _ else _] => destruct (c >=? t)
         end;
    reflexivity.
Qed.

Lemma joystick_poll_button_down
  (rd : reading) (g : Grid) (directionPrev : option string) :
  z_pin rd = false ->
  joystick_poll rd g directionPrev
  = (if is_game_over g then [POST_restart] else [], None).
Proof.
  intros Hz. unfold joystick_poll. rewrite Hz. cbn [negb].
  destruct (is_game_over g); reflexivity.
Qed.

(** X13: one pass of the polling loop sends at most one request.  It posts
    a restart only with the button down on a grid whose game is over, and
    it asks for a move only with the button up, with one of the four
    letters, and when that letter is not the direction of the pass
    before. *)
Theorem joystick_poll_requests
  (rd : reading) (g : Grid) (directionPrev : option string) :
  (length (fst (joystick_poll rd g directionPrev)) <= 1)%nat
  /\ (In POST_restart (fst (joystick_poll rd g directionPrev)) ->
      z_pin rd = false /\ is_game_over g = true)
  /\ (forall d,
         In (GET_joystick_move d) (fst (joystick_poll rd g directionPrev)) ->
         z_pin rd = true /\ in_wasd (Some d) = true
         /\ snd (joystick_poll rd g directionPrev) = Some d
         /\ directionPrev <> Some d).
Proof.
  destruct (z_pin rd) eqn:Hz.
  - rewrite (joystick_poll_button_up rd g directionPrev Hz). cbn [fst snd].
    pose proof (axis_direction_valid rd) as Hv.
    destruct (axis_direction rd) as [d0|];
      [|cbn [length In]; split; [lia|]; split; [intros []|intros d []]].
    destruct (direction_differs (Some d0) directionPrev) eqn:Hd;
      cbn [length In].
    + split; [lia|]. split; [intros [H|[]]; discriminate H|].
      intros d [H|[]]. injection H as <-. repeat split; auto.
      intros ->. cbn [direction_differs] in Hd.
      rewrite String.eqb_refl in Hd. discriminate Hd.
    + split; [lia|]. split; [intros []|intros d []].
  - rewrite (joystick_poll_button_down rd g directionPrev Hz). cbn [fst snd].
    destruct (is_game_over g); cbn [length In].
    + split; [lia|]. split; [auto|]. intros d [H|[]]. discriminate H.
    + split; [lia|]. split; [intros []|intros d []].
Qed.

Lemma joystick_poll_requests_witness :
  z_pin reading_left = true /\ in_wasd (Some "a"%string) = true
  /\ snd (joystick_poll reading_left (grid (GAME_STATE sample_world)) None)
     = Some "a"%string
  /\ None <> Some "a"%string.
Proof.
  apply (proj2 (proj2 (joystick_poll_requests
                         reading_left (grid (GAME_STATE sample_world)) None))
           "a"%string).
  left. reflexivity.
Defined.

(** X14: a direction that is held is sent once: the pass that follows a
    pass with the same reading asks for no move; and with the button up, a
    direction that differs from the one of the pass before is always
    sent. *)
Theorem joystick_direction_sent_once
  (rd : reading) (g1 g2 : Grid) (directionPrev : option string) :
  (forall d,
      ~ In (GET_joystick_move d)
           (fst (joystick_poll rd g2
                   (snd (joystick_poll rd g1 directionPrev)))))
  /\ (forall d,
         z_pin rd = true -> axis_direction rd = Some d ->
         directionPrev <> Some d ->
         fst (joystick_poll rd g1 directionPrev) = [GET_joystick_move d]).
Proof.
  split.
  - intros d. destruct (z_pin rd) eqn:Hz.
    + rewrite !(joystick_poll_button_up rd _ _ Hz). cbn [fst snd].
      destruct (axis_direction rd) as [d0|]; [|intros []].
      cbn [direction_differs]. rewrite String.eqb_refl. intros [].
    + rewrite !(joystick_poll_button_down rd _ _ Hz). cbn [fst snd].
      destruct (is_game_over g2); [intros [H|[]]; discriminate H | intros []].
  - intros d Hz Ha Hne.
    rewrite (joystick_poll_button_up rd _ _ Hz), Ha. cbn [fst].
    destruct directionPrev as [p|]; cbn [direction_differs]; [|reflexivity].
    destruct (String.eqb_spec d p) as [->|]; [|reflexivity].
    exfalso. apply Hne. reflexivity.
Qed.

Lemma joystick_direction_sent_once_witness :
  fst (joystick_poll reading_left (grid (GAME_STATE sample_world)) None)
  = [GET_joystick_move "a"].
Proof.
  apply (proj2 (joystick_direction_sent_once
                  reading_left (grid (GAME_STATE sample_world))
                  (grid (GAME_STATE sample_world)) None)
           "a"%string eq_refl eq_refl).
  discriminate.
Defined.

Lemma restart_game_world (w : World) :
  exists g r',
    restart_game w
    = (Returned,
       {| GAME_STATE := {| grid := g; score := 0;
                           high_score := high_score (GAME_STATE w) |};
          random := r' |})
    /\ is_game_over g = false.
Proof.
  destruct (new_game_session (random w) 0 (Z.le_refl 0))
    as (g & r' & E & _ & Hg).
  exists g, r'. unfold restart_game. rewrite E. unfold Ok. auto.
Qed.

(** X15: a pass of the loop with the button down asks for no move.  When
    the game is not over it leaves the session as it was; when the game is
    over the session restarts: score 0, high score kept, and a grid whose
    game is not over.  A second pass with the button still down changes
    nothing more. *)
Theorem joystick_button_restarts_once
  (rd rd' : reading) (directionPrev : option string) (w : World) :
  z_pin rd = false ->
  (is_game_over (grid (GAME_STATE w)) = false ->
   joystick_pass (directionPrev, w) rd = (None, w))
  /\ (is_game_over (grid (GAME_STATE w)) = true ->
      fst (joystick_pass (directionPrev, w) rd) = None
      /\ score (GAME_STATE (snd (joystick_pass (directionPrev, w) rd))) = 0
      /\ high_score (GAME_STATE (snd (joystick_pass (directionPrev, w) rd)))
         = high_score (GAME_STATE w)
      /\ is_game_over
           (grid (GAME_STATE (snd (joystick_pass (directionPrev, w) rd))))
         = false)
  /\ (z_pin rd' = false ->
      joystick_pass (joystick_pass (directionPrev, w) rd) rd'
      = joystick_pass (directionPrev, w) rd).
Proof.
  intros Hz.
  assert (Hidle : forall p w1,
             is_game_over (grid (GAME_STATE w1)) = false ->
             forall rd1, z_pin rd1 = false ->
                         joystick_pass (p, w1) rd1 = (None, w1)).
  { intros p w1 Hg rd1 Hz1. unfold joystick_pass.
    rewrite (joystick_poll_button_down rd1 _ _ Hz1), Hg. reflexivity. }
  assert (Hover : is_game_over (grid (GAME_STATE w)) = true ->
                  joystick_pass (directionPrev, w) rd
                  = (None, snd (restart_game w))).
  { intros Hg. unfold joystick_pass.
    rewrite (joystick_poll_button_down rd _ _ Hz), Hg. reflexivity. }
  destruct (restart_game_world w) as (g & r' & E & Hg').
  split; [intros Hg; now apply Hidle|]. split.
  - intros Hg. rewrite (Hover Hg), E. cbn [fst snd GAME_STATE grid score
                                              high_score]. auto.
  - intros Hz'. destruct (is_game_over (grid (GAME_STATE w))) eqn:Hg.
    + rewrite (Hover eq_refl), E. cbn [snd]. apply Hidle; [exact Hg'|exact Hz'].
    + rewrite (Hidle _ _ Hg rd Hz). apply Hidle; assumption.
Qed.

Lemma joystick_button_restarts_once_witness :
  fst (joystick_pass (Some "a"%string, stuck_world) reading_button) = None
  /\ score (GAME_STATE
              (snd (joystick_pass (Some "a"%string, stuck_world)
                      reading_button))) = 0
  /\ high_score (GAME_STATE
                   (snd (joystick_pass (Some "a"%string, stuck_world)
                           reading_button)))
     = high_score (GAME_STATE stuck_world)
  /\ is_game_over
       (grid (GAME_STATE
                (snd (joystick_pass (Some "a"%string, stuck_world)
                        reading_button))))
     = false.
Proof.
  exact (proj1 (proj2 (joystick_button_restarts_once
                         reading_button reading_button (Some "a"%string)
                         stuck_world eq_refl))
           eq_refl).
Defined.

Lemma deliver_ok (w : World) (q : http_request) :
  session_ok w -> session_ok (deliver w q).
Proof.
  intros Hok. destruct q as [|d]; cbn [deliver].
  - destruct (restart_game_ok w (session_ok_high_nonneg w Hok))
      as (w' & E & Hok' & _).
    rewrite E. exact Hok'.
  - rewrite joystick_move_tiles_world. unfold py_or. cbn [falsy].
    destruct (move_tiles_ok None (Some d) w Hok)
      as (o & w' & E & _ & Hok' & _).
    rewrite E. exact Hok'.
Qed.

Lemma joystick_pass_ok (p : option string) (w : World) (rd : reading) :
  session_ok w -> session_ok (snd (joystick_pass (p, w) rd)).
Proof.
  intros Hok. unfold joystick_pass.
  destruct (joystick_poll rd (grid (GAME_STATE w)) p) as [requests direction].
  cbn [snd]. revert w Hok.
  induction requests as [|q qs IH]; intros w Hok; [exact Hok|].
  cbn [fold_left]. apply IH. now apply deliver_ok.
Qed.

(** X16: the polling loop keeps a session as play produces it: after any
    list of readings the grid is four by four, its cells are tiles, at
    least two of them, and the score is between 0 and the high score. *)
Theorem joystick_loop_keeps_session (readings : list reading) (w : World) :
  session_ok w -> session_ok (snd (handle_joystick_input readings w)).
Proof.
  unfold handle_joystick_input. generalize (@None string) as p.
  revert w. induction readings as [|rd rds IH]; intros w p Hok; [exact Hok|].
  cbn [fold_left].
  destruct (joystick_pass (p, w) rd) as [p' w'] eqn:E.
  apply IH. change w' with (snd (p', w')). rewrite <- E.
  now apply joystick_pass_ok.
Qed.

Lemma joystick_loop_keeps_session_witness :
  session_ok
    (snd (handle_joystick_input
            [reading_left; reading_left; reading_idle; reading_button]
            sample_world)).
Proof.
  exact (joystick_loop_keeps_session
           [reading_left; reading_left; reading_idle; reading_button]
           sample_world sample_world_ok).
Defined.

(** ** lcd_score_update *)

Lemma string_length_append (s1 s2 : string) :
  String.length (String.append s1 s2)
  = (String.length s1 + String.length s2)%nat.
Proof. induction s1 as [|c s1 IH]; simpl; [reflexivity | now rewrite IH]. Qed.

Lemma str_four_digits (n : Z) :
  0 <= n <= DISPLAY_SCORE_MAX -> (String.length (str n) <= 4)%nat.
Proof.
  intros Hn.
  assert (H : forallb (fun k => (String.length (str (Z.of_nat k)) <=? 4)%nat)
                      (seq 0 (100 * 100)) = true) by (vm_compute; reflexivity).
  rewrite forallb_forall in H.
  specialize (H (Z.to_nat n)). rewrite Z2Nat.id in H by lia.
  apply Nat.leb_le. apply H. apply in_seq. unfold DISPLAY_SCORE_MAX in Hn.
  lia.
Qed.

(** X17: lcd_score_update clears the display and writes two lines, the
    score and then the high score, each capped at 9999; when neither is
    negative the first text has at most 11 characters and the second at
    most 16. *)
Theorem lcd_score_update_fits
  (LCD_CHAR_POSITION_1 LCD_LINE_NUM_1 LCD_LINE_NUM_2 : Z) (st : GameState) :
  0 <= score st -> 0 <= high_score st ->
  exists line1 line2,
    lcd_score_update LCD_CHAR_POSITION_1 LCD_LINE_NUM_1 LCD_LINE_NUM_2 st
    = [LCD_clear;
       LCD_write LCD_CHAR_POSITION_1 LCD_LINE_NUM_1 line1;
       LCD_write LCD_CHAR_POSITION_1 LCD_LINE_NUM_2 line2]
    /\ line1 = String.append "Score: " (str (Z.min 9999 (score st)))
    /\ line2 = String.append "High Score: " (str (Z.min 9999 (high_score st)))
    /\ (String.length line1 <= 11)%nat
    /\ (String.length line2 <= 16)%nat.
Proof.
  intros H1 H2. eexists. eexists. split; [reflexivity|].
  split; [reflexivity|]. split; [reflexivity|].
  rewrite !string_length_append.
  pose proof (str_four_digits (Z.min DISPLAY_SCORE_MAX (score st))) as L1.
  pose proof (str_four_digits (Z.min DISPLAY_SCORE_MAX (high_score st))) as L2.
  unfold DISPLAY_SCORE_MAX in *. cbn [String.length].
  split; [specialize (L1 ltac:(lia)) | specialize (L2 ltac:(lia))]; lia.
Qed.

Lemma lcd_score_update_fits_witness :
  exists line1 line2,
    lcd_score_update 0 0 1 {| grid := []; score := 12345; high_score := 20480 |}
    = [LCD_clear; LCD_write 0 0 line1; LCD_write 0 1 line2]
    /\ line1 = String.append "Score: " (str (Z.min 9999 12345))
    /\ line2 = String.append "High Score: " (str (Z.min 9999 20480))
    /\ (String.length line1 <= 11)%nat
    /\ (String.length line2 <= 16)%nat.
Proof.
  apply (lcd_score_update_fits 0 0 1
           {| grid := []; score := 12345; high_score := 20480 |});
    simpl; lia.
Defined.

(** * More on merge_tiles *)

Lemma remove_zeros_app (l1 l2 : Line) :
  remove_zeros (l1 ++ l2) = remove_zeros l1 ++ remove_zeros l2.
Proof. apply filter_app. Qed.

Lemma remove_zeros_zeros (n : nat) : remove_zeros (repeat 0 n) = [].
Proof. induction n; [reflexivity | exact IHn]. Qed.

Lemma remove_zeros_fixed (l : Line) : zero_free l -> remove_zeros l = l.
Proof.
  intros H. apply remove_zeros_full. intros Hin.
  exact (proj1 (Forall_forall _ _) H 0 Hin eq_refl).
Qed.

Lemma merge_tiles_tiles_left (line : Line) :
  remove_zeros (fst (merge_tiles line))
  = remove_zeros (fst (scan_spec (remove_zeros line))).
Proof.
  rewrite merge_tiles_fst, remove_zeros_app, remove_zeros_zeros, app_nil_r.
  apply remove_zeros_fixed, remove_zeros_zero_free.
Qed.

(** X18: in the line that merge_tiles returns no tile follows an empty
    cell, whatever the line given and its length. *)
Theorem merge_tiles_packs_left (line : Line) (i j : nat) :
  (i <= j)%nat -> (j < length (fst (merge_tiles line)))%nat ->
  nth i (fst (merge_tiles line)) 0 = 0 ->
  nth j (fst (merge_tiles line)) 0 = 0.
Proof.
  rewrite merge_tiles_fst.
  set (tiles := remove_zeros (fst (scan_spec (remove_zeros line)))).
  set (k := (GRID_WIDTH - length tiles)%nat).
  intros Hij Hj Hi.
  assert (Hz : zero_free tiles) by apply remove_zeros_zero_free.
  destruct (Nat.lt_ge_cases i (length tiles)) as [Hlt|Hge].
  - exfalso. rewrite app_nth1 in Hi by exact Hlt.
    apply (proj1 (Forall_forall _ _) Hz (nth i tiles 0)); [|exact Hi].
    now apply nth_In.
  - rewrite app_nth2 by lia. apply nth_repeat.
Qed.

Lemma merge_tiles_packs_left_witness :
  nth 3 (fst (merge_tiles [0; 2; 0; 2])) 0 = 0.
Proof.
  apply (merge_tiles_packs_left [0; 2; 0; 2] 1 3); simpl; lia.
Defined.

Lemma scan_spec_counts (l : Line) :
  Forall (fun x => 0 < x) l ->
  (length (remove_zeros (fst (scan_spec l))) <= length l)%nat
  /\ (length l <= 2 * length (remove_zeros (fst (scan_spec l))))%nat
  /\ 0 <= snd (scan_spec l)
  /\ (snd (scan_spec l) = 0 -> fst (scan_spec l) = l)
  /\ (0 < snd (scan_spec l) ->
      (length (remove_zeros (fst (scan_spec l))) < length l)%nat).
Proof.
  induction l as [| x | x y rest IH1 IH2] using pairs_ind; intros H.
  - simpl. repeat split; lia.
  - inversion H as [|? ? Hx _]; subst. simpl.
    destruct (Z.eqb_spec x 0); [lia|]. simpl. repeat split; lia.
  - inversion H as [|? ? Hx Hrest]; subst.
    inversion Hrest as [|? ? Hy Hrest']; subst.
    rewrite scan_spec_cons2.
    destruct (Z.eqb_spec x y) as [<-|Hxy].
    + replace (negb (x =? 0)) with true
        by (symmetry; apply negb_true_iff, Z.eqb_neq; lia).
      cbn [andb fst snd]. destruct (IH1 Hrest') as (A & B & C & _ & _).
      cbn [remove_zeros filter].
      replace (x + x =? 0) with false by (symmetry; apply Z.eqb_neq; lia).
      cbn [negb Z.eqb length]. fold (remove_zeros (fst (scan_spec rest))).
      repeat split; try lia.
    + cbn [andb fst snd]. destruct (IH2 Hrest) as (A & B & C & D & E).
      cbn [remove_zeros filter].
      replace (x =? 0) with false by (symmetry; apply Z.eqb_neq; lia).
      cbn [negb length]. fold (remove_zeros (fst (scan_spec (y :: rest)))).
      cbn [length] in *. repeat split; try lia.
      intros S0. rewrite (D S0). reflexivity.
Qed.

Lemma remove_zeros_positive (l : Line) :
  nonneg l -> Forall (fun x => 0 < x) (remove_zeros l).
Proof.
  unfold nonneg. intros H. apply Forall_forall. intros x Hx.
  apply filter_In in Hx. destruct Hx as [Hin Hnz].
  apply negb_true_iff, Z.eqb_neq in Hnz.
  pose proof (proj1 (Forall_forall _ _) H x Hin). simpl in *. lia.
Qed.

(** X19: on a line whose cells are not negative, merge_tiles keeps at
    least half of the tiles and never adds one; its score is never
    negative; it is 0 exactly when the number of tiles is kept, and then
    the line returned is the tiles of the line given, in their order,
    followed by the padding. *)
Theorem merge_tiles_score_counts (line : Line) :
  nonneg line ->
  (length (remove_zeros (fst (merge_tiles line)))
   <= length (remove_zeros line))%nat
  /\ (length (remove_zeros line)
      <= 2 * length (remove_zeros (fst (merge_tiles line))))%nat
  /\ 0 <= snd (merge_tiles line)
  /\ (snd (merge_tiles line) = 0
      <-> length (remove_zeros (fst (merge_tiles line)))
          = length (remove_zeros line))
  /\ (snd (merge_tiles line) = 0 ->
      fst (merge_tiles line)
      = remove_zeros line
        ++ repeat 0 (GRID_WIDTH - length (remove_zeros line))).
Proof.
  intros Hn. rewrite merge_tiles_tiles_left, merge_tiles_snd.
  destruct (scan_spec_counts (remove_zeros line) (remove_zeros_positive _ Hn))
    as (A & B & C & D & E).
  split; [exact A|]. split; [exact B|]. split; [exact C|]. split.
  - split.
    + intros S0. rewrite (D S0).
      now rewrite remove_zeros_fixed by apply remove_zeros_zero_free.
    + intros L. destruct (Z.eq_dec (snd (scan_spec (remove_zeros line))) 0)
        as [S0|S1]; [exact S0|].
      assert (0 < snd (scan_spec (remove_zeros line))) as S2 by lia.
      specialize (E S2). lia.
  - intros S0. rewrite merge_tiles_fst, (D S0).
    now rewrite remove_zeros_fixed by apply remove_zeros_zero_free.
Qed.

Lemma merge_tiles_score_counts_witness :
  (length (remove_zeros (fst (merge_tiles [2; 2; 4; 4; 8]%Z)))
   <= length (remove_zeros [2; 2; 4; 4; 8]%Z))%nat
  /\ (length (remove_zeros [2; 2; 4; 4; 8]%Z)
      <= 2 * length (remove_zeros (fst (merge_tiles [2; 2; 4; 4; 8]%Z))))%nat.
Proof.
  assert (H : nonneg [2; 2; 4; 4; 8]).
  { unfold nonneg. repeat constructor; lia. }
  destruct (merge_tiles_score_counts [2; 2; 4; 4; 8] H) as (A & B & _).
  split; [exact A | exact B].
Defined.
